(** * Naver Shopping crawler: a shallow embedding of
      [src/naver_shopping_crawler.py] and the properties of its
      extraction, filtering and presentation-sort pipeline.

    The development has these parts:
    - Text: Python [str] as a list of Unicode code points, with the [str]
      methods the crawler calls ([strip], [replace], [isdigit]) and the
      [int] and [float] constructors applied to text;
    - Dom: the rendered document the browser hands back, with class
      selectors, [locator(...).all()] and [inner_text()];
    - Crawler: [crawl_naver_shopping] itself, written in a small monad
      that threads the log of browser calls and propagates exceptions;
    - Report: the presentation sort of the entry point;
    - pure readings of the monadic blocks, sample pages, and then the
      lemmas and the theorems on the pipeline.

    Modelling choices.  The rendered document is a static tree: what a
    locator resolves to does not change between two calls.  Waiting is
    recorded in the log but takes no time.  Integers are unbounded, and
    the cap that the interpreter may put on the length of a numeral
    given to [int] is not modelled.  Floats are IEEE 754 binary64
    values, NaN included. *)

From Stdlib Require Import ZArith List String Ascii Bool Lia.
From Stdlib Require Import Permutation Sorted.
From Stdlib Require Import Floats.SpecFloat.
Import ListNotations.
Local Open Scope Z_scope.

(* ================================================================== *)
(** * Text: Python strings *)
(* ================================================================== *)

(** A Python [str] is a sequence of Unicode code points. *)
Definition char := Z.
Definition str := list char.

(** Source literals are written as UTF-8 text and decoded to code points,
    so that the Korean labels of the source appear here as they do there. *)
Definition byte_of_ascii (a : ascii) : Z := Z.of_N (N_of_ascii a).

Definition continuation (b : Z) : Z := Z.land b 63.

Fixpoint utf8_decode (bs : list Z) : str :=
  match bs with
  | [] => []
  | b0 :: r0 =>
    if b0 <? 128 then b0 :: utf8_decode r0
    else if b0 <? 224 then
      match r0 with
      | b1 :: r1 => (Z.land b0 31 * 64 + continuation b1) :: utf8_decode r1
      | [] => [b0]
      end
    else if b0 <? 240 then
      match r0 with
      | b1 :: b2 :: r2 =>
        (Z.land b0 15 * 4096 + continuation b1 * 64 + continuation b2) :: utf8_decode r2
      | _ => [b0]
      end
    else
      match r0 with
      | b1 :: b2 :: b3 :: r3 =>
        (Z.land b0 7 * 262144 + continuation b1 * 4096 + continuation b2 * 64 + continuation b3)
          :: utf8_decode r3
      | _ => [b0]
      end
  end.

Definition utf8 (s : string) : str :=
  utf8_decode (map byte_of_ascii (list_ascii_of_string s)).

Fixpoint str_eqb (s t : str) : bool :=
  match s, t with
  | [], [] => true
  | c :: s', d :: t' => (c =? d) && str_eqb s' t'
  | _, _ => false
  end.

(** ** [str.replace(old, new)]

    Left-to-right, non-overlapping replacement.  [skip] counts the
    characters of a match that are still to be dropped.  Every call site of
    the source passes a non-empty [old]. *)
Fixpoint is_prefix (p s : str) : bool :=
  match p, s with
  | [], _ => true
  | c :: p', d :: s' => (c =? d) && is_prefix p' s'
  | _ :: _, [] => false
  end.

Fixpoint replace_from (old new : str) (skip : nat) (s : str) : str :=
  match s with
  | [] => []
  | c :: r =>
    match skip with
    | S k => replace_from old new k r
    | O =>
      if is_prefix old s
      then new ++ replace_from old new (Nat.pred (List.length old)) r
      else c :: replace_from old new O r
    end
  end.

Definition replace (s old new : str) : str := replace_from old new O s.

(** ** [str.strip()]

    With no argument, [strip] removes the characters for which
    [str.isspace] holds: those of bidirectional type WS, B or S and of
    category Zs. *)
Definition is_space (c : char) : bool :=
  ((9 <=? c) && (c <=? 13)) || ((28 <=? c) && (c <=? 32))
  || (c =? 133) || (c =? 160) || (c =? 5760)
  || ((8192 <=? c) && (c <=? 8202))
  || (c =? 8232) || (c =? 8233) || (c =? 8239) || (c =? 8287)
  || (c =? 12288).

Fixpoint drop_while (p : char -> bool) (s : str) : str :=
  match s with
  | [] => []
  | c :: r => if p c then drop_while p r else s
  end.

Definition lstrip_by (p : char -> bool) (s : str) : str := drop_while p s.
Definition rstrip_by (p : char -> bool) (s : str) : str :=
  rev (drop_while p (rev s)).
Definition strip_by (p : char -> bool) (s : str) : str :=
  rstrip_by p (lstrip_by p s).

Definition strip (s : str) : str := strip_by is_space s.

(** ** The Unicode character database

    [str.isdigit], [int] and [float] consult the interpreter's Unicode
    tables, which are not part of the repository.  They are a parameter of
    the development: [to_decimal] is the "decimal digit" value of a code
    point (general category Nd) and [to_digit] its "digit" value (which
    also covers characters such as superscript digits). *)
Record unicode_db := {
  to_decimal : char -> option Z;
  to_digit : char -> option Z
}.

(** What the theorems use of the tables. *)
Record unicode_db_ok (U : unicode_db) : Prop := {
  (* '0'..'9' are the decimal digits 0..9 *)
  db_ascii_digit : forall c, 48 <= c <= 57 -> to_decimal U c = Some (c - 48);
  (* no other ASCII character is a digit *)
  db_ascii_other :
    forall c, c < 128 -> ~ 48 <= c <= 57 -> to_digit U c = None;
  (* a decimal digit is a digit, with a value in 0..9 *)
  db_decimal_digit :
    forall c d, to_decimal U c = Some d -> 0 <= d <= 9 /\ to_digit U c = Some d;
  (* white space is not a digit *)
  db_space : forall c, is_space c = true -> to_digit U c = None;
  (* Hangul syllables are not digits *)
  db_hangul : forall c, 44032 <= c <= 55203 -> to_digit U c = None
}.

(** A small instance of the tables: ASCII digits, the Arabic-Indic digits
    U+0660..U+0669 (decimal) and the superscripts U+00B2, U+00B3, U+00B9
    (digits that are not decimal). *)
Definition sample_decimal (c : char) : option Z :=
  if (48 <=? c) && (c <=? 57) then Some (c - 48)
  else if (1632 <=? c) && (c <=? 1641) then Some (c - 1632)
  else None.

Definition sample_digit (c : char) : option Z :=
  match sample_decimal c with
  | Some d => Some d
  | None =>
    if c =? 178 then Some 2 else if c =? 179 then Some 3
    else if c =? 185 then Some 1 else None
  end.

Definition sample_db : unicode_db :=
  {| to_decimal := sample_decimal; to_digit := sample_digit |}.

(** ** Exceptions

    The exception classes that occur; all derive from [Exception], so an
    [except Exception] clause catches each of them. *)
Inductive exn :=
| ValueError            (* int(), float() on malformed text *)
| TimeoutError          (* a locator that matches nothing *)
| StrictModeViolation   (* a locator that matches several elements *)
| NavigationError.      (* page.goto() that cannot load the page *)

Inductive outcome (A : Type) :=
| Return (a : A)
| Raise (e : exn).
Arguments Return {A} a.
Arguments Raise {A} e.

(** ** ASCII classes of the C runtime ([Py_ISSPACE], [Py_ISDIGIT]) *)
Definition is_ascii_space (c : char) : bool :=
  ((9 <=? c) && (c <=? 13)) || (c =? 32).

Definition is_ascii_digit (c : char) : bool := (48 <=? c) && (c <=? 57).

Definition lower (c : char) : char :=
  if (65 <=? c) && (c <=? 90) then c + 32 else c.

(** An optional sign. *)
Definition take_sign (s : str) : bool * str :=
  match s with
  | c :: r => if c =? 45 then (true, r) else if c =? 43 then (false, r)
              else (false, s)
  | [] => (false, s)
  end.

(** A run of ASCII digits: its value on top of [acc], the number of digits
    read on top of [n], and the rest of the text. *)
Fixpoint scan_digits (acc n : Z) (s : str) : Z * Z * str :=
  match s with
  | c :: r =>
    if is_ascii_digit c then scan_digits (10 * acc + (c - 48)) (n + 1) r
    else (acc, n, s)
  | [] => (acc, n, s)
  end.

(** The number that ASCII digits denote, on top of [acc]. *)
Definition ascii_value (ds : str) (acc : Z) : Z :=
  fold_left (fun a c => 10 * a + (c - 48)) ds acc.

(** ** Binary64 values

    A Python [float] is an IEEE 754 binary64 number; [spec_float] of the
    standard library is that set of values (with one NaN). *)
Definition prec : Z := 53.
Definition emax : Z := 1024.

Definition float_lt (x y : spec_float) : bool := SFltb x y.   (* x < y *)
Definition float_ge (x y : spec_float) : bool := SFleb y x.   (* x >= y *)

(** The binary64 number nearest to [m * 10^e] (ties to even): one exact
    integer product or one correctly rounded quotient of integers. *)
Definition float_of_decimal (neg : bool) (m e : Z) : spec_float :=
  match m with
  | Zpos p =>
    if 0 <=? e
    then binary_round prec emax neg (p * Z.to_pos (10 ^ e)) 0
    else SFdiv prec emax (S754_finite neg p 0)
                         (S754_finite false (Z.to_pos (10 ^ (- e))) 0)
  | _ => S754_zero neg
  end.

Section Conversions.

Variable U : unicode_db.

(** ** [str.isdigit()] *)
Definition is_digit_char (c : char) : bool :=
  match to_digit U c with Some _ => true | None => false end.

Definition isdigit (s : str) : bool :=
  match s with
  | [] => false
  | _ => forallb is_digit_char s
  end.

(** ** Text handed to the C parsers

    Both [int] and [float] first map the text to ASCII: a pure-ASCII
    text is taken as it is; otherwise white space becomes a blank, a
    decimal digit becomes its ASCII digit, and the text is cut at the
    first other non-ASCII character, which becomes a question mark. *)
Fixpoint transform_decimal_and_space (s : str) : str :=
  match s with
  | [] => []
  | c :: r =>
    if c <? 127 then c :: transform_decimal_and_space r
    else if is_space c then 32 :: transform_decimal_and_space r
    else match to_decimal U c with
         | Some d => (48 + d) :: transform_decimal_and_space r
         | None => [63]
         end
  end.

Definition to_ascii (s : str) : str :=
  if forallb (fun c => c <? 128) s then s
  else transform_decimal_and_space s.

(** ** [int(text)], base 10

    Blanks, an optional sign, then digits with single underscores
    between them, then blanks. *)
Fixpoint scan_int (prev_underscore : bool) (acc : Z) (s : str)
  : option (Z * str) :=
  match s with
  | c :: r =>
    if is_ascii_digit c then scan_int false (10 * acc + (c - 48)) r
    else if c =? 95 then
      if prev_underscore then None else scan_int true acc r
    else if prev_underscore then None else Some (acc, s)
  | [] => if prev_underscore then None else Some (acc, s)
  end.

Definition int_of_ascii (s : str) : option Z :=
  let '(neg, s2) := take_sign (drop_while is_ascii_space s) in
  match s2 with
  | c :: _ =>
    if is_ascii_digit c then
      match scan_int false 0 s2 with
      | Some (n, rest) =>
        match drop_while is_ascii_space rest with
        | [] => Some (if neg then - n else n)
        | _ :: _ => None
        end
      | None => None
      end
    else None
  | [] => None
  end.

Definition int (s : str) : outcome Z :=
  match int_of_ascii (to_ascii s) with
  | Some n => Return n
  | None => Raise ValueError
  end.

(** ** [float(text)]

    Blanks are stripped; underscores are allowed between two digits
    only and dropped; what is left is a decimal numeral with optional
    fraction and exponent, or [inf], [infinity] or [nan] in any case,
    each with an optional sign.  The value is correctly rounded, and
    too large a numeral gives an infinity, not an error. *)
Fixpoint drop_underscores (prev : char) (s : str) : option str :=
  match s with
  | [] => if prev =? 95 then None else Some []
  | c :: r =>
    if c =? 95 then
      if is_ascii_digit prev then drop_underscores c r else None
    else if (prev =? 95) && negb (is_ascii_digit c) then None
    else option_map (cons c) (drop_underscores c r)
  end.

Definition without_underscores (s : str) : option str :=
  if existsb (fun c => c =? 95) s then drop_underscores 0 s else Some s.

Definition scan_exponent (s : str) : Z * str :=
  match s with
  | c :: r =>
    if (c =? 101) || (c =? 69) then
      let '(eneg, r') := take_sign r in
      match r' with
      | d :: _ =>
        if is_ascii_digit d then
          let '(ev, _, r'') := scan_digits 0 0 r' in
          (if eneg then - ev else ev, r'')
        else (0, s)
      | [] => (0, s)
      end
    else (0, s)
  | [] => (0, s)
  end.

(** Mantissa digits as an integer, decimal exponent, rest of the text;
    [None] when there is no digit at all. *)
Definition scan_decimal (s : str) : option (Z * Z * str) :=
  let '(ip, ni, r1) := scan_digits 0 0 s in
  let '(m, nf, r2) :=
    match r1 with
    | c :: r => if c =? 46 then scan_digits ip 0 r else (ip, 0, r1)
    | [] => (ip, 0, r1)
    end in
  if ni + nf =? 0 then None
  else let '(e, r3) := scan_exponent r2 in Some (m, e - nf, r3).

Fixpoint is_prefix_nocase (p s : str) : bool :=
  match p, s with
  | [] , _ => true
  | c :: p', d :: s' => (lower d =? c) && is_prefix_nocase p' s'
  | _ :: _, [] => false
  end.

Definition scan_inf_or_nan (s : str) : option (spec_float * str) :=
  if is_prefix_nocase (utf8 "inf") s then
    let r := skipn 3 s in
    Some (S754_infinity false,
          if is_prefix_nocase (utf8 "inity") r then skipn 5 r else r)
  else if is_prefix_nocase (utf8 "nan") s then Some (S754_nan, skipn 3 s)
  else None.

Definition float_of_ascii (s : str) : option spec_float :=
  match strip_by is_ascii_space s with
  | [] => None
  | s1 =>
    match without_underscores s1 with
    | None => None
    | Some s2 =>
      let '(neg, s3) := take_sign s2 in
      match scan_decimal s3 with
      | Some (m, e, []) => Some (float_of_decimal neg m e)
      | Some (_, _, _ :: _) => None
      | None =>
        match scan_inf_or_nan s3 with
        | Some (f, []) => Some (if neg then SFopp f else f)
        | _ => None
        end
      end
    end
  end.

Definition float (s : str) : outcome spec_float :=
  match float_of_ascii (to_ascii s) with
  | Some f => Return f
  | None => Raise ValueError
  end.

End Conversions.

(* ================================================================== *)
(** * Dom: the rendered document *)
(* ================================================================== *)

#[local] Set Warnings "-register-all".

(** An element of the rendered page: its tag (the lower-case local name),
    its class list, the text the renderer reports for it ([innerText]), and
    its child elements in document order. *)
Inductive element :=
| Element (tag : str) (classes : list str) (text : str)
          (children : list element).

Definition tag_of (e : element) : str :=
  let 'Element t _ _ _ := e in t.
Definition classes_of (e : element) : list str :=
  let 'Element _ c _ _ := e in c.
Definition text_of (e : element) : str :=
  let 'Element _ _ x _ := e in x.
Definition children_of (e : element) : list element :=
  let 'Element _ _ _ k := e in k.

(** The element and everything below it, in document order. *)
Fixpoint subtree (e : element) : list element :=
  match e with
  | Element _ _ _ k => e :: flat_map subtree k
  end.

Definition descendants (e : element) : list element :=
  flat_map subtree (children_of e).

(** ** Selectors

    The source only uses groups of compound selectors of the shape
    [tag.class], separated by commas. *)
Record compound := { sel_tag : str; sel_class : str }.
Definition selector := list compound.

Fixpoint split_on (sep : char) (s : str) : list str :=
  match s with
  | [] => [[]]
  | c :: r =>
    if c =? sep then [] :: split_on sep r
    else match split_on sep r with
         | h :: t => (c :: h) :: t
         | [] => [[c]]
         end
  end.

Fixpoint take_until (sep : char) (s : str) : str :=
  match s with
  | [] => []
  | c :: r => if c =? sep then [] else c :: take_until sep r
  end.

Fixpoint after (sep : char) (s : str) : str :=
  match s with
  | [] => []
  | c :: r => if c =? sep then r else after sep r
  end.

Definition parse_compound (s : str) : compound :=
  let t := strip_by is_ascii_space s in
  {| sel_tag := take_until 46 t; sel_class := after 46 t |}.

Definition css (s : str) : selector := map parse_compound (split_on 44 s).

Definition matches_compound (c : compound) (e : element) : bool :=
  str_eqb (tag_of e) (sel_tag c)
  && existsb (str_eqb (sel_class c)) (classes_of e).

Definition matches (sel : selector) (e : element) : bool :=
  existsb (fun c => matches_compound c e) sel.

(** The elements a locator resolves to, within a scope. *)
Definition page_matches (doc : element) (sel : str) : list element :=
  filter (matches (css sel)) (subtree doc).

Definition item_matches (item : element) (sel : str) : list element :=
  filter (matches (css sel)) (descendants item).

(** ** The browser

    The page address: the search endpoint with the (encoded) keyword, the
    1-based page index and the page size. *)
Record url := { query : str; paging_index : Z; paging_size : Z }.

(** What [page.goto] gives for an address: the rendered document, or an
    exception when the page cannot be loaded. *)
Definition web := url -> outcome element.

(* ================================================================== *)
(** * Crawler *)
(* ================================================================== *)

(** ** Computations

    A computation threads the log of browser interactions and either
    returns a value or raises. *)
Inductive event :=
| Goto (u : url)              (* page.goto(url) *)
| WaitForTimeout (ms : Z)     (* page.wait_for_timeout(ms) *)
| QueryAll (sel : str)        (* page.locator(sel).all() *)
| InnerText (sel : str)       (* item.locator(sel).inner_text() *)
| CloseBrowser.               (* browser.close() *)

Definition log := list event.
Definition M (A : Type) : Type := log -> outcome A * log.

Definition ret {A} (a : A) : M A := fun l => (Return a, l).

Definition bind {A B} (m : M A) (f : A -> M B) : M B :=
  fun l =>
    match m l with
    | (Return a, l') => f a l'
    | (Raise e, l') => (Raise e, l')
    end.

Definition lift {A} (o : outcome A) : M A := fun l => (o, l).

Definition tell (ev : event) : M unit := fun l => (Return tt, l ++ [ev]).

(** [try: body / except Exception: handler] *)
Definition try_except {A} (body : M A) (handler : M A) : M A :=
  fun l =>
    match body l with
    | (Return a, l') => (Return a, l')
    | (Raise _, l') => handler l'
    end.

Declare Scope crawl_scope.
Delimit Scope crawl_scope with crawl.
Notation "x <- m ;; k" := (bind m (fun x => k))
  (at level 61, m at next level, right associativity) : crawl_scope.
Notation "m ;;; k" := (bind m (fun _ => k))
  (at level 61, right associativity) : crawl_scope.
Local Open Scope crawl_scope.

(** A [for] loop whose body updates the loop-carried state. *)
Fixpoint for_each {A S} (body : S -> A -> M S) (xs : list A) (s : S) : M S :=
  match xs with
  | [] => ret s
  | x :: r => s' <- body s x ;; for_each body r s'
  end.

(** ** Browser operations *)
Definition goto (w : web) (u : url) : M element :=
  tell (Goto u) ;;; lift (w u).

Definition locator_all (doc : element) (sel : str) : M (list element) :=
  tell (QueryAll sel) ;;; ret (page_matches doc sel).

(** [inner_text] needs its locator to resolve to exactly one element. *)
Definition lookup (item : element) (sel : str) : outcome str :=
  match item_matches item sel with
  | [e] => Return (text_of e)
  | [] => Raise TimeoutError
  | _ :: _ :: _ => Raise StrictModeViolation
  end.

Definition inner_text (item : element) (sel : str) : M str :=
  tell (InnerText sel) ;;; lift (lookup item sel).

(** ** Product records *)
Record product := {
  name : str;
  price : option Z;
  rating : option spec_float;
  reviews : Z
}.

Section Crawl.

Variable U : unicode_db.
Variable w : web.

Definition items_selector : str :=
  utf8 "div.product_item__MDtDF, div.product_item__KZ02m".
Definition items_fallback_selector : str := utf8 "div.product_item__MDtDF".
Definition name_selector : str := utf8 "a.product_link__TrAac".
Definition price_selector : str := utf8 "span.price_num__S2p_v".
Definition rating_selector : str := utf8 "span.product_grade__IzyU3".
Definition reviews_selector : str := utf8 "span.product_review__a1z2V".

(** Lines 55-59: the name, or [None] when the card is skipped. *)
Definition extract_name (item : element) : M (option str) :=
  try_except
    (t <- inner_text item name_selector ;; ret (Some (strip t)))
    (ret None).

(** Lines 61-73. *)
Definition clean_price (t : str) : str :=
  strip (replace (replace t (utf8 ",") []) (utf8 "원") []).

Definition extract_price (item : element) : M (option Z) :=
  try_except
    (t <- inner_text item price_selector ;;
     let price_text := clean_price t in
     if isdigit U price_text
     then n <- lift (int U price_text) ;; ret (Some n)
     else ret None)
    (ret None).

(** Lines 75-82. *)
Definition clean_rating (t : str) : str :=
  strip (replace (strip t) (utf8 "별점") []).

Definition extract_rating (item : element) : M (option spec_float) :=
  try_except
    (t <- inner_text item rating_selector ;;
     x <- lift (float U (clean_rating t)) ;; ret (Some x))
    (ret None).

(** Lines 84-95. *)
Definition clean_reviews (t : str) : str :=
  strip (replace (replace (strip t) (utf8 "리뷰") []) (utf8 ",") []).

Definition extract_reviews (item : element) : M Z :=
  try_except
    (t <- inner_text item reviews_selector ;;
     let review_text := clean_reviews t in
     if isdigit U review_text
     then lift (int U review_text)
     else ret 0)
    (ret 0).

Variable min_rating : spec_float.
Variable min_reviews : Z.

(** Line 97: the condition under which the card is passed over. *)
Definition rejected (rating : option spec_float) (reviews : Z) : bool :=
  match rating with
  | None => true
  | Some x => float_lt x min_rating || (reviews <? min_reviews)
  end.

(** Lines 54-107: the body of the loop over the items of a page. *)
Definition item_body (results : list product) (item : element)
  : M (list product) :=
  n <- extract_name item ;;
  match n with
  | None => ret results                                   (* continue *)
  | Some name =>
    price <- extract_price item ;;
    rating <- extract_rating item ;;
    reviews <- extract_reviews item ;;
    if rejected rating reviews then ret results           (* continue *)
    else ret (results ++ [ {| name := name; price := price;
                              rating := rating; reviews := reviews |} ])
  end.

Variable keyword : str.

Definition page_url (page_idx : Z) : url :=
  {| query := keyword; paging_index := page_idx; paging_size := 40 |}.

(** Lines 48-52: the cards of the page, by the two-tier lookup. *)
Definition locate_items (doc : element) : M (list element) :=
  items <- locator_all doc items_selector ;;
  match items with
  | [] => locator_all doc items_fallback_selector
  | _ :: _ => ret items
  end.

(** Lines 43-107: the body of the loop over the pages. *)
Definition page_body (results : list product) (page_idx : Z)
  : M (list product) :=
  doc <- goto w (page_url page_idx) ;;
  tell (WaitForTimeout 1000) ;;;
  items <- locate_items doc ;;
  for_each item_body items results.

(** [range(1, max_pages + 1)] *)
Definition page_range (max_pages : Z) : list Z :=
  map Z.of_nat (seq 1 (Z.to_nat max_pages)).

(** Lines 37-111.  [browser.close()] is reached only when the loop ends
    without an exception. *)
Definition crawl_naver_shopping (max_pages : Z) : M (list product) :=
  results <- for_each page_body (page_range max_pages) [] ;;
  tell CloseBrowser ;;;
  ret results.

End Crawl.

(** Running a computation from an empty log. *)
Definition run {A} (m : M A) : outcome A * log := m [].
Definition result_of {A} (m : M A) : outcome A := fst (run m).
Definition trace_of {A} (m : M A) : log := snd (run m).

(* ================================================================== *)
(** * Report: the presentation sort of the entry point *)
(* ================================================================== *)

(** The sort key of lines 125-128, a pair compared lexicographically. *)
Definition sort_key (item : product) : bool * Z :=
  match price item with
  | None => (true, 999999999)
  | Some p => (false, p)
  end.

Definition bool_lt (a b : bool) : bool := negb a && b.

Definition key_lt (k1 k2 : bool * Z) : bool :=
  if Bool.eqb (fst k1) (fst k2) then snd k1 <? snd k2
  else bool_lt (fst k1) (fst k2).

(** [sorted(data, key=...)]: a stable sort that compares keys with [<]
    only.  Stability fixes the result, so that insertion into a sorted
    list stands for the library's merge strategy. *)
Fixpoint insert_by {A K} (lt : K -> K -> bool) (key : A -> K)
         (x : A) (l : list A) : list A :=
  match l with
  | [] => [x]
  | y :: r => if lt (key y) (key x) then y :: insert_by lt key x r else x :: l
  end.

Fixpoint sorted_by {A K} (lt : K -> K -> bool) (key : A -> K)
         (l : list A) : list A :=
  match l with
  | [] => []
  | x :: r => insert_by lt key x (sorted_by lt key r)
  end.

(** Lines 123-129. *)
Definition sorted_for_report (data : list product) : list product :=
  sorted_by key_lt sort_key data.

(* ================================================================== *)
(** * Pure readings of the pipeline

    What each monadic block computes, as a function of the scraped
    element alone; the lemmas below prove the blocks equal to them. *)
(* ================================================================== *)

Section Readings.

Variable U : unicode_db.

(** The number a run of decimal digits denotes. *)
Definition is_decimal_char (c : char) : bool :=
  match to_decimal U c with Some _ => true | None => false end.

Definition decimal_of (c : char) : Z :=
  match to_decimal U c with Some d => d | None => 0 end.

Definition decimal_run (s : str) : bool :=
  match s with
  | [] => false
  | _ => forallb is_decimal_char s
  end.

Definition decimal_value (s : str) : Z :=
  fold_left (fun acc c => 10 * acc + decimal_of c) s 0.

Definition name_field (item : element) : option str :=
  match lookup item name_selector with
  | Return t => Some (strip t)
  | Raise _ => None
  end.

Definition price_of_text (t : str) : option Z :=
  if isdigit U (clean_price t) then
    match int U (clean_price t) with
    | Return n => Some n
    | Raise _ => None
    end
  else None.

Definition price_field (item : element) : option Z :=
  match lookup item price_selector with
  | Return t => price_of_text t
  | Raise _ => None
  end.

Definition rating_of_text (t : str) : option spec_float :=
  match float U (clean_rating t) with
  | Return x => Some x
  | Raise _ => None
  end.

Definition rating_field (item : element) : option spec_float :=
  match lookup item rating_selector with
  | Return t => rating_of_text t
  | Raise _ => None
  end.

Definition reviews_of_text (t : str) : Z :=
  if isdigit U (clean_reviews t) then
    match int U (clean_reviews t) with
    | Return n => n
    | Raise _ => 0
    end
  else 0.

Definition reviews_field (item : element) : Z :=
  match lookup item reviews_selector with
  | Return t => reviews_of_text t
  | Raise _ => 0
  end.

(** The record built for a card, before the threshold test. *)
Definition candidate (item : element) : option product :=
  match name_field item with
  | None => None
  | Some n =>
    Some {| name := n; price := price_field item;
            rating := rating_field item; reviews := reviews_field item |}
  end.

Variable min_rating : spec_float.
Variable min_reviews : Z.

Definition kept (c : product) : bool :=
  negb (rejected min_rating min_reviews (rating c) (reviews c)).

(** The records a card adds to [results]: none or one. *)
Definition item_records (item : element) : list product :=
  match candidate item with
  | Some c => if kept c then [c] else []
  | None => []
  end.

(** The [inner_text] calls made for a card. *)
Definition item_trace (item : element) : log :=
  match name_field item with
  | None => [InnerText name_selector]
  | Some _ =>
    [InnerText name_selector; InnerText price_selector;
     InnerText rating_selector; InnerText reviews_selector]
  end.

(** The cards of a page after the two-tier lookup. *)
Definition page_items (doc : element) : list element :=
  match page_matches doc items_selector with
  | [] => page_matches doc items_fallback_selector
  | l => l
  end.

Definition page_queries (doc : element) : log :=
  match page_matches doc items_selector with
  | [] => [QueryAll items_selector; QueryAll items_fallback_selector]
  | _ :: _ => [QueryAll items_selector]
  end.

Definition page_records (doc : element) : list product :=
  flat_map item_records (page_items doc).

Definition page_trace (u : url) (doc : element) : log :=
  Goto u :: WaitForTimeout 1000
    :: page_queries doc ++ flat_map item_trace (page_items doc).

End Readings.

(** The claim's inclusion test, with [>=] as the language defines it. *)
Definition qualifies (min_rating : spec_float) (min_reviews : Z)
           (c : product) : bool :=
  match rating c with
  | None => false
  | Some x => float_ge x min_rating && (min_reviews <=? reviews c)
  end.

Definition is_nan (x : spec_float) : bool :=
  match x with S754_nan => true | _ => false end.

(** Order of the report. *)
Definition has_price (c : product) : bool :=
  match price c with Some _ => true | None => false end.
Definition no_price (c : product) : bool := negb (has_price c).

Definition key_le (k1 k2 : bool * Z) : bool := negb (key_lt k2 k1).
Definition key_eqb (k1 k2 : bool * Z) : bool :=
  Bool.eqb (fst k1) (fst k2) && (snd k1 =? snd k2).

Definition report_le (a b : product) : Prop :=
  key_le (sort_key a) (sort_key b) = true.

Definition price_le (a b : product) : Prop :=
  match price a, price b with
  | Some p, Some q => p <= q
  | _, _ => False
  end.

(* ================================================================== *)
(** * Sample pages *)
(* ================================================================== *)

Definition span (class text : string) : element :=
  Element (utf8 "span") [utf8 class] (utf8 text) [].

Definition title_link (text : string) : element :=
  Element (utf8 "a") [utf8 "product_link__TrAac"] (utf8 text) [].

(** A card with the four sub-elements the crawler reads. *)
Definition card (class title price rating reviews : string) : element :=
  Element (utf8 "div") [utf8 class] []
    [ title_link title;
      span "price_num__S2p_v" price;
      span "product_grade__IzyU3" rating;
      span "product_review__a1z2V" reviews ].

(** A card without a title link. *)
Definition untitled_card (class price rating reviews : string) : element :=
  Element (utf8 "div") [utf8 class] []
    [ span "price_num__S2p_v" price;
      span "product_grade__IzyU3" rating;
      span "product_review__a1z2V" reviews ].

Definition page_of (cards : list element) : element :=
  Element (utf8 "html") [] [] [Element (utf8 "body") [] [] cards].

(** 4.9 and 4.95 as binary64 numbers. *)
Definition float_4_9 : spec_float := S754_finite false 5516909543528858 (-50).
Definition float_4_95 : spec_float := S754_finite false 5573204538870989 (-50).

Definition pork : element :=
  card "product_item__MDtDF" "Pork belly" "12,900원" "별점4.95" "리뷰 1,234".

Definition nan_card : element :=
  card "product_item__MDtDF" "Mystery" "9,900원" "별점nan" "리뷰 1,000".

Definition blank_title_card : element :=
  card "product_item__MDtDF" "  " "5,000원" "별점5.0" "리뷰 500".

Definition no_title_card : element :=
  untitled_card "product_item__MDtDF" "5,000원" "별점5.0" "리뷰 500".


Definition beef : element :=
  card "product_item__KZ02m" "Beef brisket" "25,000원" "별점4.9" "리뷰 100".

Definition lamb : element :=
  card "product_item__MDtDF" "Lamb rack" "가격문의" "별점5.0" "리뷰 2,000".

(** A page whose cards carry a class name that neither selector knows. *)
Definition other_layout_page : element :=
  page_of [card "product_item__Qx7Lp" "Pork belly" "12,900원" "별점4.95"
                "리뷰 1,234"].


Definition float_5_0 : spec_float := S754_finite false 5629499534213120 (-50).

Definition keyword_pork : str := utf8 "삼겹살".


(** Every page is the same document. *)
Definition web_const (doc : element) : web := fun _ => Return doc.

(** Page 1 is [d1], every other page [d2]. *)
Definition web_two (d1 d2 : element) : web :=
  fun u => if paging_index u =? 1 then Return d1 else Return d2.

(* ================================================================== *)
(** * The page address as text (lines 32-35 and 44) *)
(* ================================================================== *)

(** ** [str(n)] for an integer: its decimal numeral

    [fuel] bounds the number of digits; the binary length of [n] is
    enough. *)
Fixpoint digits_of (fuel : nat) (n : Z) (acc : str) : str :=
  match fuel with
  | O => acc
  | S f =>
    let acc' := (48 + n mod 10) :: acc in
    if n <? 10 then acc' else digits_of f (n / 10) acc'
  end.

Definition str_of_nonneg (n : Z) : str :=
  digits_of (S (Z.to_nat (Z.log2 n))) n [].

Definition str_of_int (n : Z) : str :=
  if n <? 0 then 45 :: str_of_nonneg (- n) else str_of_nonneg n.

(** ** [str.encode("utf-8")], strict: [None] stands for the
    [UnicodeEncodeError] that a surrogate code point raises. *)
Definition utf8_encode_char (c : char) : option (list Z) :=
  if c <? 0 then None
  else if c <? 128 then Some [c]
  else if c <? 2048 then Some [192 + c / 64; 128 + c mod 64]
  else if c <? 65536 then
    if (55296 <=? c) && (c <=? 57343) then None
    else Some [224 + c / 4096; 128 + (c / 64) mod 64; 128 + c mod 64]
  else if c <? 1114112 then
    Some [240 + c / 262144; 128 + (c / 4096) mod 64;
          128 + (c / 64) mod 64; 128 + c mod 64]
  else None.

Fixpoint utf8_encode (s : str) : option (list Z) :=
  match s with
  | [] => Some []
  | c :: r =>
    match utf8_encode_char c, utf8_encode r with
    | Some b, Some bs => Some (b ++ bs)
    | _, _ => None
    end
  end.

(** ** [urllib.parse.quote(string)], with the default [safe="/"]

    Letters, digits and [_.-~] are always safe; every other byte of the
    UTF-8 encoding is written as a percent sign and two upper-case
    hexadecimal digits. *)
Definition is_always_safe (b : Z) : bool :=
  ((65 <=? b) && (b <=? 90)) || ((97 <=? b) && (b <=? 122))
  || ((48 <=? b) && (b <=? 57))
  || (b =? 95) || (b =? 46) || (b =? 45) || (b =? 126).

Definition hex_digit (d : Z) : char := if d <? 10 then 48 + d else 55 + d.

Definition quote_byte (b : Z) : str :=
  if is_always_safe b || (b =? 47) then [b]
  else [37; hex_digit (b / 16); hex_digit (b mod 16)].

Definition quote (s : str) : option str :=
  option_map (flat_map quote_byte) (utf8_encode s).

(** [base_url.format(query=..., page=...)] *)
Definition base_url_format (query : str) (page : Z) : str :=
  utf8 "https://search.shopping.naver.com/search/all?"
  ++ utf8 "query=" ++ query
  ++ utf8 "&pagingIndex=" ++ str_of_int page
  ++ utf8 "&pagingSize=40".

(** Line 44: the address requested for a page. *)
Definition request_url (keyword : str) (page_idx : Z) : option str :=
  option_map (fun q => base_url_format q page_idx) (quote keyword).

(** Reading a quoted text back, to show that [quote] loses nothing. *)
Definition hex_value (c : char) : Z := if c <? 58 then c - 48 else c - 55.

Fixpoint unquote_bytes (s : str) : list Z :=
  match s with
  | [] => []
  | c :: r =>
    if c =? 37 then
      match r with
      | h :: l :: r' => (16 * hex_value h + hex_value l) :: unquote_bytes r'
      | _ => c :: unquote_bytes r
      end
    else c :: unquote_bytes r
  end.

(** A code point that a text can be encoded with. *)
Definition is_scalar (c : char) : bool :=
  (0 <=? c) && (c <? 1114112) && negb ((55296 <=? c) && (c <=? 57343)).

(* ================================================================== *)
(** * The printed report (lines 114-138) *)
(* ================================================================== *)

Section Printing.

(** How the interpreter writes a float ([repr]); not part of the
    repository, and a parameter here. *)
Variable float_repr : spec_float -> str.


(** Line 134. *)
Definition price_output (entry : product) : str :=
  match price entry with
  | Some price_value => str_of_int price_value ++ utf8 "원"
  | None => utf8 "표시 안 됨"
  end.






End Printing.

(** ** Shapes of text used in the statements *)

(** No white space at either end. *)
Definition trimmed (s : str) : Prop :=
  match s with [] => True | c :: _ => is_space c = false end
  /\ match rev s with [] => True | c :: _ => is_space c = false end.

(** The characters that [quote] can write. *)
Definition is_quoted_char (c : char) : bool :=
  is_always_safe c || (c =? 47) || (c =? 37).

Definition count_char (c : char) (s : str) : nat :=
  List.length (filter (fun x => x =? c) s).

(** The rating test of line 97 alone. *)
Definition rating_passes (min_rating : spec_float) (c : product) : bool :=
  match rating c with
  | Some x => negb (float_lt x min_rating)
  | None => false
  end.

(** The document served for a page, when it is served. *)
Definition served (w : web) (keyword : str) (i : Z) : element :=
  match w (page_url keyword i) with
  | Return d => d
  | Raise _ => Element [] [] [] []
  end.

Definition loads (w : web) (keyword : str) (i : Z) : bool :=
  match w (page_url keyword i) with
  | Return _ => true
  | Raise _ => false
  end.

(* ================================================================== *)
(** * Facts about text *)
(* ================================================================== *)

Lemma is_ascii_digit_iff c : is_ascii_digit c = true <-> 48 <= c <= 57.
Proof. unfold is_ascii_digit. rewrite andb_true_iff, !Z.leb_le. tauto. Qed.

Lemma is_ascii_digit_not_space c :
  is_ascii_digit c = true -> is_ascii_space c = false.
Proof.
  rewrite is_ascii_digit_iff. intros H. unfold is_ascii_space.
  apply orb_false_iff. split.
  - apply andb_false_iff. right. apply Z.leb_gt. lia.
  - apply Z.eqb_neq. lia.
Qed.

Lemma sample_db_ok : unicode_db_ok sample_db.
Proof.
  split; cbn [to_decimal to_digit sample_db]; unfold sample_digit, sample_decimal.
  - intros c H.
    replace ((48 <=? c) && (c <=? 57)) with true; [reflexivity|].
    symmetry. apply andb_true_iff. rewrite !Z.leb_le. lia.
  - intros c H1 H2.
    destruct ((48 <=? c) && (c <=? 57)) eqn:E1.
    { apply andb_true_iff in E1. rewrite !Z.leb_le in E1. lia. }
    destruct ((1632 <=? c) && (c <=? 1641)) eqn:E2.
    { apply andb_true_iff in E2. rewrite !Z.leb_le in E2. lia. }
    destruct (c =? 178) eqn:E3; [apply Z.eqb_eq in E3; lia|].
    destruct (c =? 179) eqn:E4; [apply Z.eqb_eq in E4; lia|].
    destruct (c =? 185) eqn:E5; [apply Z.eqb_eq in E5; lia|].
    reflexivity.
  - intros c d.
    destruct ((48 <=? c) && (c <=? 57)) eqn:E1.
    { apply andb_true_iff in E1. rewrite !Z.leb_le in E1.
      intros [= <-]. split; [lia | reflexivity]. }
    destruct ((1632 <=? c) && (c <=? 1641)) eqn:E2.
    { apply andb_true_iff in E2. rewrite !Z.leb_le in E2.
      intros [= <-]. split; [lia | reflexivity]. }
    discriminate.
  - intros c H. unfold is_space in H.
    repeat rewrite orb_true_iff in H. repeat rewrite andb_true_iff in H.
    rewrite !Z.leb_le, !Z.eqb_eq in H.
    destruct ((48 <=? c) && (c <=? 57)) eqn:E1.
    { apply andb_true_iff in E1. rewrite !Z.leb_le in E1. lia. }
    destruct ((1632 <=? c) && (c <=? 1641)) eqn:E2.
    { apply andb_true_iff in E2. rewrite !Z.leb_le in E2. lia. }
    destruct (c =? 178) eqn:E3; [apply Z.eqb_eq in E3; lia|].
    destruct (c =? 179) eqn:E4; [apply Z.eqb_eq in E4; lia|].
    destruct (c =? 185) eqn:E5; [apply Z.eqb_eq in E5; lia|].
    reflexivity.
  - intros c H.
    destruct ((48 <=? c) && (c <=? 57)) eqn:E1.
    { apply andb_true_iff in E1. rewrite !Z.leb_le in E1. lia. }
    destruct ((1632 <=? c) && (c <=? 1641)) eqn:E2.
    { apply andb_true_iff in E2. rewrite !Z.leb_le in E2. lia. }
    destruct (c =? 178) eqn:E3; [apply Z.eqb_eq in E3; lia|].
    destruct (c =? 179) eqn:E4; [apply Z.eqb_eq in E4; lia|].
    destruct (c =? 185) eqn:E5; [apply Z.eqb_eq in E5; lia|].
    reflexivity.
Qed.

(** Replacing a one-character text by nothing deletes that character. *)
Lemma replace_char_filter c s :
  replace s [c] [] = filter (fun x => negb (x =? c)) s.
Proof.
  unfold replace. induction s as [|x s IH]; [reflexivity|].
  cbn [replace_from is_prefix filter List.length Nat.pred app].
  rewrite andb_true_r, (Z.eqb_sym c x).
  destruct (x =? c); cbn [negb]; rewrite IH; reflexivity.
Qed.

Section TextFacts.

Variable U : unicode_db.
Hypothesis U_ok : unicode_db_ok U.

Lemma scan_int_digits ds : forall acc rest,
  forallb is_ascii_digit ds = true ->
  match rest with
  | [] => True
  | c :: _ => is_ascii_digit c = false /\ c <> 95
  end ->
  scan_int false acc (ds ++ rest) = Some (ascii_value ds acc, rest).
Proof.
  induction ds as [|d ds IH]; intros acc rest Hd Hr.
  - cbn. destruct rest as [|c r]; [reflexivity|].
    destruct Hr as [Hc H95]. cbn. rewrite Hc.
    apply Z.eqb_neq in H95. rewrite H95. reflexivity.
  - cbn in Hd. apply andb_true_iff in Hd as [Hd1 Hd2].
    cbn [app scan_int]. rewrite Hd1. rewrite IH by assumption. reflexivity.
Qed.

Lemma digits_no_leading_space d ds :
  is_ascii_digit d = true ->
  take_sign (drop_while is_ascii_space (d :: ds)) = (false, d :: ds).
Proof.
  intros Hd. cbn [drop_while]. rewrite (is_ascii_digit_not_space _ Hd).
  apply is_ascii_digit_iff in Hd. unfold take_sign.
  destruct (d =? 45) eqn:E1; [apply Z.eqb_eq in E1; lia|].
  destruct (d =? 43) eqn:E2; [apply Z.eqb_eq in E2; lia|].
  reflexivity.
Qed.

Lemma int_of_ascii_digits ds :
  ds <> [] -> forallb is_ascii_digit ds = true ->
  int_of_ascii ds = Some (ascii_value ds 0).
Proof.
  intros Hne Hd. destruct ds as [|d ds]; [congruence|].
  pose proof Hd as Hd'. cbn in Hd'. apply andb_true_iff in Hd' as [Hd1 _].
  unfold int_of_ascii. rewrite (digits_no_leading_space _ _ Hd1), Hd1.
  rewrite <- (app_nil_r (d :: ds)) at 1.
  rewrite (scan_int_digits (d :: ds) 0 [] Hd I). reflexivity.
Qed.

Lemma int_of_ascii_cut ds :
  forallb is_ascii_digit ds = true -> int_of_ascii (ds ++ [63]) = None.
Proof.
  intros Hd. destruct ds as [|d ds]; [reflexivity|].
  pose proof Hd as Hd'. cbn in Hd'. apply andb_true_iff in Hd' as [Hd1 _].
  unfold int_of_ascii. cbn [app].
  rewrite (digits_no_leading_space _ _ Hd1), Hd1.
  change (d :: ds ++ [63]) with ((d :: ds) ++ [63]).
  rewrite (scan_int_digits (d :: ds) 0 [63] Hd).
  - reflexivity.
  - split; [reflexivity | lia].
Qed.

(** Characters that [isdigit] accepts. *)
Lemma digit_char_cases c :
  is_digit_char U c = true ->
  (48 <= c <= 57 /\ to_decimal U c = Some (c - 48))
  \/ (127 <= c /\ is_space c = false).
Proof.
  unfold is_digit_char. intros H.
  destruct (Z.lt_ge_cases c 128) as [Hlt|Hge].
  - destruct (Z.le_gt_cases 48 c) as [H1|H1];
    [destruct (Z.le_gt_cases c 57) as [H2|H2]|].
    + left. split; [lia|]. apply (db_ascii_digit U U_ok). lia.
    + rewrite (db_ascii_other U U_ok c) in H by lia. discriminate.
    + rewrite (db_ascii_other U U_ok c) in H by lia. discriminate.
  - right. split; [lia|].
    destruct (is_space c) eqn:E; [|reflexivity].
    rewrite (db_space U U_ok c E) in H. discriminate.
Qed.

Lemma decimal_is_digit c :
  is_decimal_char U c = true -> is_digit_char U c = true.
Proof.
  unfold is_decimal_char, is_digit_char.
  destruct (to_decimal U c) as [d|] eqn:E; [|discriminate].
  destruct (db_decimal_digit U U_ok c d E) as [_ ->]. reflexivity.
Qed.

Lemma decimal_of_range c : 0 <= decimal_of U c <= 9.
Proof.
  unfold decimal_of. destruct (to_decimal U c) as [d|] eqn:E; [|lia].
  apply (db_decimal_digit U U_ok c d E).
Qed.

(** The ASCII image of a text of digits: the ASCII digits of its
    decimal values, or, when a character is a digit without a decimal
    value, some ASCII digits and a question mark. *)
Lemma transform_digits s :
  forallb (is_digit_char U) s = true ->
  (forallb (is_decimal_char U) s = true
   /\ transform_decimal_and_space U s = map (fun c => 48 + decimal_of U c) s)
  \/ (forallb (is_decimal_char U) s = false
      /\ exists ds, forallb is_ascii_digit ds = true
                    /\ transform_decimal_and_space U s = ds ++ [63]).
Proof.
  induction s as [|c s IH]; intros H.
  - left. split; reflexivity.
  - cbn in H. apply andb_true_iff in H as [Hc Hs].
    specialize (IH Hs). cbn [transform_decimal_and_space forallb map].
    destruct (digit_char_cases c Hc) as [[Hr Hdec]|[Hr Hsp]].
    + assert (Hlt : (c <? 127) = true) by (apply Z.ltb_lt; lia).
      assert (Hdc : is_decimal_char U c = true)
        by (unfold is_decimal_char; rewrite Hdec; reflexivity).
      assert (Hv : 48 + decimal_of U c = c)
        by (unfold decimal_of; rewrite Hdec; lia).
      rewrite Hlt, Hdc, Hv. cbn [andb].
      destruct IH as [[Ha Hb]|[Ha [ds [Hds Hb]]]].
      * left. split; [assumption|]. rewrite Hb. reflexivity.
      * right. split; [assumption|]. exists (c :: ds). split.
        -- cbn [forallb]. rewrite Hds, andb_true_r. apply is_ascii_digit_iff. lia.
        -- rewrite Hb. reflexivity.
    + assert (Hlt : (c <? 127) = false) by (apply Z.ltb_ge; lia).
      rewrite Hlt, Hsp. unfold is_decimal_char, decimal_of.
      destruct (to_decimal U c) as [d|] eqn:E.
      * cbn [andb]. pose proof (db_decimal_digit U U_ok c d E) as [Hd _].
        destruct IH as [[Ha Hb]|[Ha [ds [Hds Hb]]]].
        -- left. split; [assumption|]. rewrite Hb. reflexivity.
        -- right. split; [assumption|]. exists ((48 + d) :: ds). split.
           ++ cbn [forallb]. rewrite Hds, andb_true_r. apply is_ascii_digit_iff. lia.
           ++ rewrite Hb. reflexivity.
      * right. split; [reflexivity|]. exists []. split; reflexivity.
Qed.

Lemma to_ascii_digits s :
  forallb (is_digit_char U) s = true ->
  to_ascii U s = transform_decimal_and_space U s.
Proof.
  unfold to_ascii. destruct (forallb (fun c => c <? 128) s) eqn:E;
    [|reflexivity].
  intros H. induction s as [|c s IH]; [reflexivity|].
  cbn in E, H. apply andb_true_iff in E as [Ec Es].
  apply andb_true_iff in H as [Hc Hs].
  cbn [transform_decimal_and_space].
  apply Z.ltb_lt in Ec.
  destruct (digit_char_cases c Hc) as [[Hr _]|[Hr _]].
  - replace (c <? 127) with true by (symmetry; apply Z.ltb_lt; lia).
    rewrite <- IH by assumption. reflexivity.
  - assert (c = 127) by lia. subst c.
    (* 127 is not a digit *)
    unfold is_digit_char in Hc.
    rewrite (db_ascii_other U U_ok 127) in Hc by lia. discriminate.
Qed.

Lemma ascii_value_map s : forall acc,
  ascii_value (map (fun c => 48 + decimal_of U c) s) acc
  = fold_left (fun a c => 10 * a + decimal_of U c) s acc.
Proof.
  unfold ascii_value. induction s as [|c s IH]; intros acc; [reflexivity|].
  cbn [map fold_left]. rewrite IH. f_equal. lia.
Qed.

Lemma map_digits_are_ascii s :
  forallb is_ascii_digit (map (fun c => 48 + decimal_of U c) s) = true.
Proof.
  induction s as [|c s IH]; [reflexivity|]. cbn [map forallb]. rewrite IH, andb_true_r.
  apply is_ascii_digit_iff. pose proof (decimal_of_range c). lia.
Qed.

(** [int] on a text that passed [isdigit]. *)
Lemma int_after_isdigit s :
  isdigit U s = true ->
  int U s = if decimal_run U s then Return (decimal_value U s)
            else Raise ValueError.
Proof.
  intros H. destruct s as [|c s]; [discriminate|].
  cbn [isdigit] in H. unfold int, decimal_run.
  rewrite (to_ascii_digits _ H).
  destruct (transform_digits _ H) as [[Ha Hb]|[Ha [ds [Hds Hb]]]].
  - rewrite Ha, Hb, int_of_ascii_digits.
    + rewrite ascii_value_map. reflexivity.
    + discriminate.
    + apply map_digits_are_ascii.
  - rewrite Ha, Hb, (int_of_ascii_cut _ Hds). reflexivity.
Qed.

Lemma decimal_run_isdigit s : decimal_run U s = true -> isdigit U s = true.
Proof.
  destruct s as [|c s]; [discriminate|]. unfold decimal_run, isdigit.
  rewrite !forallb_forall. intros H x Hx. apply decimal_is_digit, H, Hx.
Qed.

Lemma decimal_value_nonneg s : 0 <= decimal_value U s.
Proof.
  unfold decimal_value.
  assert (G : forall acc, 0 <= acc ->
    0 <= fold_left (fun a c => 10 * a + decimal_of U c) s acc).
  { induction s as [|c s IH]; intros acc Hacc; [exact Hacc|].
    cbn [fold_left]. apply IH. pose proof (decimal_of_range c). lia. }
  apply G. lia.
Qed.

(** The price and the review count read from a text: the value of a run
    of decimal digits, and the default for anything else. *)
Lemma price_of_text_spec t :
  price_of_text U t =
  if decimal_run U (clean_price t)
  then Some (decimal_value U (clean_price t)) else None.
Proof.
  unfold price_of_text. destruct (isdigit U (clean_price t)) eqn:E.
  - rewrite (int_after_isdigit _ E).
    destruct (decimal_run U (clean_price t)); reflexivity.
  - destruct (decimal_run U (clean_price t)) eqn:D; [|reflexivity].
    rewrite (decimal_run_isdigit _ D) in E. discriminate.
Qed.

Lemma reviews_of_text_spec t :
  reviews_of_text U t =
  if decimal_run U (clean_reviews t)
  then decimal_value U (clean_reviews t) else 0.
Proof.
  unfold reviews_of_text. destruct (isdigit U (clean_reviews t)) eqn:E.
  - rewrite (int_after_isdigit _ E).
    destruct (decimal_run U (clean_reviews t)); reflexivity.
  - destruct (decimal_run U (clean_reviews t)) eqn:D; [|reflexivity].
    rewrite (decimal_run_isdigit _ D) in E. discriminate.
Qed.

End TextFacts.

(* ================================================================== *)
(** * The monadic blocks and their pure readings *)
(* ================================================================== *)

Lemma inner_text_run item sel (l : log) :
  inner_text item sel l = (lookup item sel, l ++ [InnerText sel]).
Proof. reflexivity. Qed.

Ltac run_block :=
  unfold try_except, bind, ret, lift; rewrite ?inner_text_run.

Section Blocks.

Variable U : unicode_db.

Lemma extract_name_run item l :
  extract_name item l
  = (Return (name_field item), l ++ [InnerText name_selector]).
Proof.
  unfold extract_name, name_field. run_block.
  destruct (lookup item name_selector); reflexivity.
Qed.

Lemma extract_price_run item l :
  extract_price U item l
  = (Return (price_field U item), l ++ [InnerText price_selector]).
Proof.
  unfold extract_price, price_field, price_of_text. run_block.
  destruct (lookup item price_selector) as [t|e]; [|reflexivity].
  destruct (isdigit U (clean_price t)); [|reflexivity].
  destruct (int U (clean_price t)); reflexivity.
Qed.

Lemma extract_rating_run item l :
  extract_rating U item l
  = (Return (rating_field U item), l ++ [InnerText rating_selector]).
Proof.
  unfold extract_rating, rating_field, rating_of_text. run_block.
  destruct (lookup item rating_selector) as [t|e]; [|reflexivity].
  destruct (float U (clean_rating t)); reflexivity.
Qed.

Lemma extract_reviews_run item l :
  extract_reviews U item l
  = (Return (reviews_field U item), l ++ [InnerText reviews_selector]).
Proof.
  unfold extract_reviews, reviews_field, reviews_of_text. run_block.
  destruct (lookup item reviews_selector) as [t|e]; [|reflexivity].
  destruct (isdigit U (clean_reviews t)); [|reflexivity].
  destruct (int U (clean_reviews t)); reflexivity.
Qed.

Variable min_rating : spec_float.
Variable min_reviews : Z.

Lemma item_body_run results item l :
  item_body U min_rating min_reviews results item l
  = (Return (results ++ item_records U min_rating min_reviews item),
     l ++ item_trace item).
Proof.
  unfold item_body, item_records, item_trace, candidate, kept.
  unfold bind at 1. rewrite extract_name_run.
  destruct (name_field item) as [n|].
  - unfold bind at 1. rewrite extract_price_run.
    unfold bind at 1. rewrite extract_rating_run.
    unfold bind at 1. rewrite extract_reviews_run.
    cbn [rating reviews].
    destruct (rejected min_rating min_reviews (rating_field U item)
                       (reviews_field U item));
      cbn [negb]; unfold ret; rewrite <- !app_assoc; cbn [app];
      rewrite ?app_nil_r; reflexivity.
  - unfold ret. rewrite app_nil_r. reflexivity.
Qed.

Lemma items_loop_run items : forall results l,
  for_each (item_body U min_rating min_reviews) items results l
  = (Return (results ++ flat_map (item_records U min_rating min_reviews) items),
     l ++ flat_map item_trace items).
Proof.
  induction items as [|item items IH]; intros results l.
  - cbn. unfold ret. rewrite !app_nil_r. reflexivity.
  - cbn [for_each flat_map]. unfold bind. rewrite item_body_run, IH.
    rewrite <- !app_assoc. reflexivity.
Qed.

Lemma locate_items_run doc l :
  locate_items doc l = (Return (page_items doc), l ++ page_queries doc).
Proof.
  unfold locate_items, locator_all, page_items, page_queries.
  unfold bind, tell, ret.
  destruct (page_matches doc items_selector);
    rewrite <- ?app_assoc; reflexivity.
Qed.

Variable w : web.
Variable keyword : str.

Lemma page_body_loaded results idx doc l :
  w (page_url keyword idx) = Return doc ->
  page_body U w min_rating min_reviews keyword results idx l
  = (Return (results ++ page_records U min_rating min_reviews doc),
     l ++ page_trace (page_url keyword idx) doc).
Proof.
  intros Hw. unfold page_body, goto, page_records, page_trace.
  unfold bind, tell, lift. rewrite Hw, locate_items_run, items_loop_run.
  rewrite <- !app_assoc. reflexivity.
Qed.

Lemma page_body_failed results idx e l :
  w (page_url keyword idx) = Raise e ->
  page_body U w min_rating min_reviews keyword results idx l
  = (Raise e, l ++ [Goto (page_url keyword idx)]).
Proof.
  intros Hw. unfold page_body, goto. unfold bind, tell, lift. rewrite Hw.
  reflexivity.
Qed.

(** The loop over pages that all load. *)
Lemma pages_loop_loaded (docs : Z -> element) idxs : forall results l,
  (forall i, In i idxs -> w (page_url keyword i) = Return (docs i)) ->
  for_each (page_body U w min_rating min_reviews keyword) idxs results l
  = (Return (results ++
             flat_map (fun i => page_records U min_rating min_reviews (docs i))
                      idxs),
     l ++ flat_map (fun i => page_trace (page_url keyword i) (docs i)) idxs).
Proof.
  induction idxs as [|i idxs IH]; intros results l Hw.
  - cbn. unfold ret. rewrite !app_nil_r. reflexivity.
  - cbn [for_each flat_map]. unfold bind.
    rewrite (page_body_loaded _ _ (docs i)) by (apply Hw; left; reflexivity).
    rewrite IH by (intros j Hj; apply Hw; right; exact Hj).
    rewrite <- !app_assoc. reflexivity.
Qed.

(** The loop over pages up to the first one that does not load. *)
Lemma pages_loop_failed (docs : Z -> element) pre k post e results l :
  (forall i, In i pre -> w (page_url keyword i) = Return (docs i)) ->
  w (page_url keyword k) = Raise e ->
  for_each (page_body U w min_rating min_reviews keyword)
           (pre ++ k :: post) results l
  = (Raise e,
     l ++ flat_map (fun i => page_trace (page_url keyword i) (docs i)) pre
       ++ [Goto (page_url keyword k)]).
Proof.
  revert results l. induction pre as [|i pre IH]; intros results l Hw Hk.
  - cbn [app for_each flat_map]. unfold bind.
    rewrite (page_body_failed _ _ e) by exact Hk. reflexivity.
  - cbn [app for_each flat_map]. unfold bind.
    rewrite (page_body_loaded _ _ (docs i)) by (apply Hw; left; reflexivity).
    rewrite IH; [|intros j Hj; apply Hw; right; exact Hj|exact Hk].
    rewrite <- !app_assoc. reflexivity.
Qed.

End Blocks.

(** ** [range(1, max_pages + 1)] *)
Lemma in_page_range n j : In j (page_range n) <-> 1 <= j <= n.
Proof.
  unfold page_range. rewrite in_map_iff. split.
  - intros [i [<- Hi]]. apply in_seq in Hi. lia.
  - intros H. exists (Z.to_nat j). split; [lia|]. apply in_seq. lia.
Qed.

Lemma page_range_split n k :
  1 <= k <= n ->
  page_range n = page_range (k - 1) ++ k :: map Z.of_nat (seq (S (Z.to_nat k)) (Z.to_nat (n - k))).
Proof.
  intros H. unfold page_range.
  replace (Z.to_nat n) with (Z.to_nat (k - 1) + S (Z.to_nat (n - k)))%nat by lia.
  rewrite seq_app, map_app. f_equal.
  cbn [seq map]. f_equal; [lia|]. f_equal. f_equal. lia.
Qed.

(* ================================================================== *)
(** * Facts about the stable sort *)
(* ================================================================== *)

Lemma Permutation_filter_compat {A} (p : A -> bool) (l l' : list A) :
  Permutation l l' -> Permutation (filter p l) (filter p l').
Proof.
  induction 1 as [|x l l' _ IH|x y l|l l' l'' _ IH1 _ IH2]; cbn [filter].
  - constructor.
  - destruct (p x); [constructor|]; exact IH.
  - destruct (p x), (p y); try apply Permutation_refl. apply perm_swap.
  - eapply Permutation_trans; eassumption.
Qed.

Section SortFacts.

Context {A K : Type}.
Variable lt : K -> K -> bool.
Variable key : A -> K.

Let le (a b : A) : Prop := lt (key b) (key a) = false.

Hypothesis lt_asym : forall j k, lt j k = true -> lt k j = false.
Hypothesis le_trans :
  forall i j k, lt j i = false -> lt k j = false -> lt k i = false.

Lemma insert_by_perm x l : Permutation (insert_by lt key x l) (x :: l).
Proof.
  induction l as [|y r IH]; cbn [insert_by]; [apply Permutation_refl|].
  destruct (lt (key y) (key x)); [|apply Permutation_refl].
  eapply Permutation_trans; [apply perm_skip, IH | apply perm_swap].
Qed.

Lemma sorted_by_perm l : Permutation (sorted_by lt key l) l.
Proof.
  induction l as [|x r IH]; cbn [sorted_by]; [constructor|].
  eapply Permutation_trans; [apply insert_by_perm | apply perm_skip, IH].
Qed.

Lemma insert_by_sorted x l :
  StronglySorted le l -> StronglySorted le (insert_by lt key x l).
Proof.
  induction 1 as [|y r Hr IH Hy]; cbn [insert_by].
  - repeat constructor.
  - destruct (lt (key y) (key x)) eqn:E.
    + constructor; [exact IH|].
      eapply Permutation_Forall;
        [apply Permutation_sym, insert_by_perm|].
      constructor; [|exact Hy]. unfold le. apply lt_asym, E.
    + constructor; [constructor; assumption|].
      constructor; [exact E|].
      eapply Forall_impl; [|exact Hy].
      intros z Hz. unfold le in *. eapply le_trans; eassumption.
Qed.

Lemma sorted_by_sorted l : StronglySorted le (sorted_by lt key l).
Proof.
  induction l as [|x r IH]; cbn [sorted_by]; [constructor|].
  apply insert_by_sorted, IH.
Qed.

(** Stability: records that the order does not separate keep their
    input order. *)
Variable p : A -> bool.
Hypothesis p_unordered :
  forall a b, p a = true -> p b = true -> lt (key a) (key b) = false.

Lemma insert_by_filter x l :
  filter p (insert_by lt key x l) = filter p (x :: l).
Proof.
  induction l as [|y r IH]; cbn [insert_by]; [reflexivity|].
  destruct (lt (key y) (key x)) eqn:E; [|reflexivity].
  cbn [filter] in *. rewrite IH.
  destruct (p y) eqn:Py; [|reflexivity].
  destruct (p x) eqn:Px; [|reflexivity].
  rewrite (p_unordered y x Py Px) in E. discriminate.
Qed.

Lemma sorted_by_filter l : filter p (sorted_by lt key l) = filter p l.
Proof.
  induction l as [|x r IH]; cbn [sorted_by]; [reflexivity|].
  rewrite insert_by_filter. cbn [filter]. rewrite IH. reflexivity.
Qed.

End SortFacts.

(** ** The order of the report *)
Lemma key_lt_asym j k : key_lt j k = true -> key_lt k j = false.
Proof.
  destruct j as [[|] p], k as [[|] q]; unfold key_lt; cbn;
    try discriminate; try reflexivity;
    rewrite Z.ltb_lt; intros H; apply Z.ltb_ge; lia.
Qed.

Lemma key_le_trans i j k :
  key_lt j i = false -> key_lt k j = false -> key_lt k i = false.
Proof.
  destruct i as [[|] p], j as [[|] q], k as [[|] r]; unfold key_lt; cbn;
    try discriminate; try reflexivity;
    rewrite !Z.ltb_ge; lia.
Qed.

Lemma no_price_unordered a b :
  no_price a = true -> no_price b = true ->
  key_lt (sort_key a) (sort_key b) = false.
Proof.
  unfold no_price, has_price, sort_key.
  destruct (price a), (price b); try discriminate. reflexivity.
Qed.

Lemma same_key_unordered k a b :
  key_eqb (sort_key a) k = true -> key_eqb (sort_key b) k = true ->
  key_lt (sort_key a) (sort_key b) = false.
Proof.
  unfold key_eqb, key_lt. rewrite !andb_true_iff, !Z.eqb_eq.
  intros [Ha1 Ha2] [Hb1 Hb2]. apply eqb_prop in Ha1, Hb1.
  rewrite Ha1, Ha2, Hb1, Hb2, eqb_reflx. apply Z.ltb_irrefl.
Qed.

(** In a list in report order the priced records come first. *)
Lemma report_order_split l :
  StronglySorted report_le l -> l = filter has_price l ++ filter no_price l.
Proof.
  induction 1 as [|a r Hr IH Ha]; [reflexivity|].
  cbn [filter]. unfold no_price at 1.
  destruct (has_price a) eqn:Pa; cbn [negb app].
  - f_equal. exact IH.
  - assert (Hall : Forall (fun b => no_price b = true) r).
    { eapply Forall_impl; [|exact Ha]. intros b Hb.
      unfold report_le, key_le, key_lt, sort_key, no_price, has_price in *.
      destruct (price a); [discriminate|].
      destruct (price b); [discriminate|reflexivity]. }
    assert (H1 : filter has_price r = []).
    { clear -Hall. induction Hall as [|b r Hb _ IH]; [reflexivity|].
      cbn [filter]. unfold no_price in Hb.
      destruct (has_price b); [discriminate|exact IH]. }
    assert (H2 : filter no_price r = r).
    { clear -Hall. induction Hall as [|b r Hb _ IH]; [reflexivity|].
      cbn [filter]. rewrite Hb, IH. reflexivity. }
    rewrite H1, H2. reflexivity.
Qed.

Lemma report_order_priced l :
  StronglySorted report_le l -> StronglySorted price_le (filter has_price l).
Proof.
  induction 1 as [|a r Hr IH Ha]; cbn [filter]; [constructor|].
  destruct (has_price a) eqn:Pa; [|exact IH].
  constructor; [exact IH|].
  apply Forall_forall. intros b Hb. apply filter_In in Hb as [Hb Pb].
  rewrite Forall_forall in Ha. specialize (Ha b Hb).
  unfold report_le, key_le, key_lt, sort_key, price_le, has_price in *.
  destruct (price a); [|discriminate]. destruct (price b); [|discriminate].
  cbn in Ha. apply negb_true_iff, Z.ltb_ge in Ha. exact Ha.
Qed.

(* ================================================================== *)
(** * Facts about the selectors *)
(* ================================================================== *)

Lemma fallback_matches_primary e :
  matches (css items_fallback_selector) e = true ->
  matches (css items_selector) e = true.
Proof.
  change (css items_fallback_selector)
    with [parse_compound (utf8 "div.product_item__MDtDF")].
  change (css items_selector)
    with [parse_compound (utf8 "div.product_item__MDtDF");
          parse_compound (utf8 " div.product_item__KZ02m")].
  cbn [matches existsb]. rewrite orb_false_r. intros ->. reflexivity.
Qed.

Lemma filter_filter_implied {A} (p q : A -> bool) (l : list A) :
  (forall x, p x = true -> q x = true) ->
  filter p l = filter p (filter q l).
Proof.
  intros H. induction l as [|x l IH]; [reflexivity|]. cbn [filter].
  destruct (p x) eqn:Px.
  - rewrite (H x Px). cbn [filter]. rewrite Px, IH. reflexivity.
  - destruct (q x); [cbn [filter]; rewrite Px|]; exact IH.
Qed.

Lemma fallback_within_primary doc :
  page_matches doc items_fallback_selector
  = filter (matches (css items_fallback_selector))
           (page_matches doc items_selector).
Proof.
  unfold page_matches. apply filter_filter_implied, fallback_matches_primary.
Qed.

Lemma page_items_primary doc :
  page_items doc = page_matches doc items_selector.
Proof.
  unfold page_items. rewrite fallback_within_primary.
  destruct (page_matches doc items_selector); reflexivity.
Qed.

(* ================================================================== *)
(** * Facts about comparing binary64 numbers *)
(* ================================================================== *)

Lemma SFcompare_swap x y :
  SFcompare y x = option_map CompOpp (SFcompare x y).
Proof.
  destruct x as [sx|sx| |sx mx ex], y as [sy|sy| |sy my ey]; cbn;
    try reflexivity;
    try (destruct sx; reflexivity); try (destruct sy; reflexivity);
    try (destruct sx, sy; reflexivity).
  destruct sx, sy; cbn; try reflexivity;
    rewrite (Z.compare_antisym ex ey);
    destruct (ex ?= ey); cbn [CompOpp option_map]; try reflexivity;
    rewrite (Pos.compare_cont_antisym mx my Eq); reflexivity.
Qed.

Lemma SFcompare_nan x y :
  SFcompare x y = None -> is_nan x = true \/ is_nan y = true.
Proof.
  destruct x, y; cbn; try discriminate; auto.
Qed.

(** Away from NaN, "not below" is "at least". *)
Lemma not_lt_is_ge x y :
  is_nan x = false -> is_nan y = false ->
  negb (float_lt x y) = float_ge x y.
Proof.
  intros Hx Hy. unfold float_lt, float_ge, SFltb, SFleb.
  rewrite (SFcompare_swap x y).
  destruct (SFcompare x y) as [[| |]|] eqn:E; cbn; try reflexivity.
  apply SFcompare_nan in E. destruct E; congruence.
Qed.

Lemma kept_is_qualifies min_rating min_reviews c :
  is_nan min_rating = false ->
  (forall x, rating c = Some x -> is_nan x = false) ->
  kept min_rating min_reviews c = qualifies min_rating min_reviews c.
Proof.
  intros Hm Hc. unfold kept, qualifies, rejected.
  destruct (rating c) as [x|]; [|reflexivity].
  rewrite negb_orb, (not_lt_is_ge x min_rating (Hc x eq_refl) Hm).
  f_equal. rewrite Z.leb_antisym. reflexivity.
Qed.

(* ================================================================== *)
(** * The crawl as a whole *)
(* ================================================================== *)

Section WholeCrawl.

Variable U : unicode_db.
Variable w : web.
Variable min_rating : spec_float.
Variable min_reviews : Z.
Variable keyword : str.

Lemma crawl_all_loaded (docs : Z -> element) max_pages :
  (forall i, 1 <= i <= max_pages -> w (page_url keyword i) = Return (docs i)) ->
  run (crawl_naver_shopping U w min_rating min_reviews keyword max_pages)
  = (Return (flat_map (fun i => page_records U min_rating min_reviews (docs i))
                      (page_range max_pages)),
     flat_map (fun i => page_trace (page_url keyword i) (docs i))
              (page_range max_pages)
     ++ [CloseBrowser]).
Proof.
  intros Hw. unfold run, crawl_naver_shopping. unfold bind at 1.
  rewrite (pages_loop_loaded U min_rating min_reviews w keyword docs).
  - reflexivity.
  - intros i Hi. apply Hw, in_page_range, Hi.
Qed.

Lemma crawl_first_failure (docs : Z -> element) max_pages k e :
  1 <= k <= max_pages ->
  (forall i, 1 <= i < k -> w (page_url keyword i) = Return (docs i)) ->
  w (page_url keyword k) = Raise e ->
  run (crawl_naver_shopping U w min_rating min_reviews keyword max_pages)
  = (Raise e,
     flat_map (fun i => page_trace (page_url keyword i) (docs i))
              (page_range (k - 1))
     ++ [Goto (page_url keyword k)]).
Proof.
  intros Hk Hw He. unfold run, crawl_naver_shopping. unfold bind at 1.
  rewrite (page_range_split max_pages k Hk).
  rewrite (pages_loop_failed U min_rating min_reviews w keyword docs
             _ _ _ e); [reflexivity| |exact He].
  intros i Hi. apply in_page_range in Hi. apply Hw. lia.
Qed.

(** Which records are returned when every page loads. *)
Lemma crawl_membership (docs : Z -> element) max_pages c :
  (forall i, 1 <= i <= max_pages -> w (page_url keyword i) = Return (docs i)) ->
  exists rs,
    result_of (crawl_naver_shopping U w min_rating min_reviews keyword max_pages)
    = Return rs
    /\ (In c rs <->
        exists i item,
          1 <= i <= max_pages /\ In item (page_items (docs i))
          /\ candidate U item = Some c
          /\ kept min_rating min_reviews c = true).
Proof.
  intros Hw. unfold result_of. rewrite (crawl_all_loaded docs _ Hw).
  eexists. split; [reflexivity|].
  rewrite in_flat_map. split.
  - intros [i [Hi Hc]]. apply in_page_range in Hi.
    unfold page_records in Hc. apply in_flat_map in Hc as [item [Hitem Hc]].
    exists i, item. repeat split; try lia; try assumption;
      unfold item_records in Hc; destruct (candidate U item) as [c'|];
      try contradiction;
      destruct (kept min_rating min_reviews c') eqn:K; try contradiction;
      destruct Hc as [<-|[]]; [reflexivity|exact K].
  - intros [i [item [Hi [Hitem [Hc K]]]]]. exists i.
    split; [apply in_page_range, Hi|].
    unfold page_records. apply in_flat_map. exists item.
    split; [exact Hitem|]. unfold item_records. rewrite Hc, K. left.
    reflexivity.
Qed.

End WholeCrawl.

(** The threshold test does not read the price. *)
Lemma kept_ignores_price min_rating min_reviews c p :
  kept min_rating min_reviews
       {| name := name c; price := p; rating := rating c; reviews := reviews c |}
  = kept min_rating min_reviews c.
Proof. reflexivity. Qed.

(** ASCII digits are decimal digits in every table. *)
Lemma decimal_run_ascii U s :
  unicode_db_ok U -> s <> [] -> forallb is_ascii_digit s = true ->
  decimal_run U s = true /\ decimal_value U s = ascii_value s 0.
Proof.
  intros HU Hne Hs.
  assert (H1 : forallb (is_decimal_char U) s = true).
  { rewrite forallb_forall in *. intros c Hc. specialize (Hs c Hc).
    apply is_ascii_digit_iff in Hs. unfold is_decimal_char.
    rewrite (db_ascii_digit U HU c Hs). reflexivity. }
  split.
  - destruct s; [congruence|exact H1].
  - unfold decimal_value, ascii_value. generalize 0. clear Hne H1.
    induction s as [|c s IH]; intros acc; [reflexivity|].
    cbn in Hs. apply andb_true_iff in Hs as [Hc Hs]. cbn [fold_left].
    rewrite (IH Hs). do 2 f_equal. apply is_ascii_digit_iff in Hc.
    unfold decimal_of. rewrite (db_ascii_digit U HU c Hc). reflexivity.
Qed.

(** A text that starts with a Hangul syllable is not a run of digits. *)
Lemma hangul_not_digits U c s :
  unicode_db_ok U -> 44032 <= c <= 55203 -> isdigit U (c :: s) = false.
Proof.
  intros HU Hc. cbn [isdigit forallb]. unfold is_digit_char at 1.
  rewrite (db_hangul U HU c Hc). reflexivity.
Qed.

(* ================================================================== *)
(** * The inclusion test (C1) *)
(* ================================================================== *)

(** Away from NaN the returned records are those that have a rating at
    least [min_rating] and at least [min_reviews] reviews, whatever their
    price. *)
Lemma returned_iff_qualifies U w min_rating min_reviews keyword docs max_pages c :
  (forall i, 1 <= i <= max_pages -> w (page_url keyword i) = Return (docs i)) ->
  is_nan min_rating = false ->
  (forall x, rating c = Some x -> is_nan x = false) ->
  exists rs,
    result_of (crawl_naver_shopping U w min_rating min_reviews keyword max_pages)
    = Return rs
    /\ (In c rs <->
        (exists i item, 1 <= i <= max_pages /\ In item (page_items (docs i))
                        /\ candidate U item = Some c)
        /\ qualifies min_rating min_reviews c = true).
Proof.
  intros Hw Hm Hc.
  destruct (crawl_membership U w min_rating min_reviews keyword docs max_pages c Hw)
    as [rs [Hrs Hin]].
  exists rs. split; [exact Hrs|]. rewrite Hin.
  rewrite <- (kept_is_qualifies min_rating min_reviews c Hm Hc).
  split.
  - intros [i [item [H1 [H2 [H3 H4]]]]]. split; [|exact H4].
    exists i, item. auto.
  - intros [[i [item [H1 [H2 H3]]]] H4]. exists i, item. auto.
Qed.

(** C1 (defect in the code).  The claim: a record is returned if and only
    if its rating is present, its rating is at least [min_rating] and its
    review count is at least [min_reviews].  The code passes over a card
    whose rating is below [min_rating]; a rating text that reads as NaN is
    below nothing, so its record is returned although its rating is not at
    least [min_rating]. *)
Theorem nan_rating_is_returned :
  result_of (crawl_naver_shopping sample_db (web_const (page_of [nan_card]))
                                  float_4_9 100 keyword_pork 1)
  = Return [ {| name := utf8 "Mystery"; price := Some 9900;
                rating := Some S754_nan; reviews := 1000 |} ]
  /\ qualifies float_4_9 100
               {| name := utf8 "Mystery"; price := Some 9900;
                  rating := Some S754_nan; reviews := 1000 |} = false.
Proof. split; vm_compute; reflexivity. Qed.

(* ================================================================== *)
(** * The presentation sort (C2) *)
(* ================================================================== *)

(** C2.  For every sequence of records the sorted report is a
    rearrangement of it in which the records with a price come first, in
    non-decreasing order of price, followed by the records without a
    price in their input order; records with equal keys keep their input
    order. *)
Theorem presentation_sort_order (data : list product) :
  Permutation (sorted_for_report data) data
  /\ sorted_for_report data
     = filter has_price (sorted_for_report data) ++ filter no_price data
  /\ StronglySorted price_le (filter has_price (sorted_for_report data))
  /\ Permutation (filter has_price (sorted_for_report data))
                 (filter has_price data)
  /\ StronglySorted report_le (sorted_for_report data)
  /\ (forall k, filter (fun c => key_eqb (sort_key c) k) (sorted_for_report data)
                = filter (fun c => key_eqb (sort_key c) k) data).
Proof.
  unfold sorted_for_report.
  pose proof (sorted_by_perm key_lt sort_key data) as Hperm.
  assert (Hsorted : StronglySorted report_le (sorted_by key_lt sort_key data)).
  { pose proof (sorted_by_sorted key_lt sort_key key_lt_asym key_le_trans data)
      as H.
    eapply StronglySorted_ind with (P := StronglySorted report_le);
      [constructor| |exact H].
    intros a l _ IH Ha. constructor; [exact IH|].
    eapply Forall_impl; [|exact Ha]. intros b Hb.
    unfold report_le, key_le. rewrite Hb. reflexivity. }
  repeat split.
  - exact Hperm.
  - rewrite (report_order_split _ Hsorted) at 1. f_equal.
    apply sorted_by_filter, no_price_unordered.
  - apply report_order_priced, Hsorted.
  - apply Permutation_filter_compat, Hperm.
  - exact Hsorted.
  - intros k. apply sorted_by_filter. intros a b. apply same_key_unordered.
Qed.

(** Scenario E of the specification: a priced record goes before an
    unpriced one. *)
Example priced_record_goes_first n1 n2 r1 r2 v1 v2 :
  sorted_for_report
    [ {| name := n1; price := None; rating := r1; reviews := v1 |};
      {| name := n2; price := Some 5000; rating := r2; reviews := v2 |} ]
  = [ {| name := n2; price := Some 5000; rating := r2; reviews := v2 |};
      {| name := n1; price := None; rating := r1; reviews := v1 |} ].
Proof. reflexivity. Qed.

(* ================================================================== *)
(** * Pages that do not load (C3) *)
(* ================================================================== *)




(* ================================================================== *)
(** * Cards without a name (C4) *)
(* ================================================================== *)

(** C4, as stated, fails for a title that is present but blank: the card
    yields a record whose name is the empty text. *)
Lemma blank_title_is_returned :
  name_field blank_title_card = Some []
  /\ result_of (crawl_naver_shopping sample_db
                  (web_const (page_of [blank_title_card]))
                  float_4_9 100 keyword_pork 1)
     = Return [ {| name := []; price := Some 5000;
                   rating := Some float_5_0; reviews := 500 |} ].
Proof. split; vm_compute; reflexivity. Qed.

(** C4, amended.  For every card whose title cannot be read, because the
    title element is absent (or not unique), the card produces no record:
    the results are left as they were, and nothing but the title is
    looked up. *)
Theorem unreadable_title_yields_no_record
        U min_rating min_reviews item e results l :
  lookup item name_selector = Raise e ->
  item_body U min_rating min_reviews results item l
  = (Return results, l ++ [InnerText name_selector])
  /\ item_records U min_rating min_reviews item = [].
Proof.
  intros H. rewrite item_body_run.
  unfold item_records, item_trace, candidate, name_field. rewrite H.
  rewrite app_nil_r. split; reflexivity.
Qed.

Lemma unreadable_title_yields_no_record_witness :
  item_body sample_db float_4_9 100 [] no_title_card []
  = (Return [], [] ++ [InnerText name_selector])
  /\ item_records sample_db float_4_9 100 no_title_card = [].
Proof.
  apply (unreadable_title_yields_no_record sample_db float_4_9 100
           no_title_card TimeoutError [] []).
  reflexivity.
Defined.

(* ================================================================== *)
(** * Field parsing (C5, C6, C7) *)
(* ================================================================== *)

Lemma clean_price_filters t :
  clean_price t
  = strip (filter (fun x => negb (x =? 50896))
                  (filter (fun x => negb (x =? 44)) t)).
Proof.
  unfold clean_price. change (utf8 ",") with [44].
  change (utf8 "원") with [50896]. rewrite !replace_char_filter. reflexivity.
Qed.





(** 4.95 and 4.9 are the binary64 numbers nearest to 495/100 and 49/10. *)
Lemma float_4_95_nearest :
  float_of_decimal false 495 (-2) = float_4_95
  /\ float_of_decimal false 49 (-1) = float_4_9.
Proof. split; vm_compute; reflexivity. Qed.



(* ================================================================== *)
(** * Isolation of the field extractions (C8) *)
(* ================================================================== *)




(* ================================================================== *)
(** * The two-tier lookup of the cards (C9, C10) *)
(* ================================================================== *)



(** C10.  In every rendered document the elements that the fallback
    selector matches are among those that the primary selector matches;
    so when the primary lookup finds nothing the fallback finds nothing
    either, and the two-tier lookup returns just what the primary lookup
    returns. *)
Theorem fallback_adds_nothing (doc : element) :
  incl (page_matches doc items_fallback_selector)
       (page_matches doc items_selector)
  /\ page_matches doc items_fallback_selector
     = filter (matches (css items_fallback_selector))
              (page_matches doc items_selector)
  /\ (page_matches doc items_selector = [] ->
      page_matches doc items_fallback_selector = [])
  /\ (forall l, fst (locate_items doc l)
                = Return (page_matches doc items_selector)).
Proof.
  split; [|split; [|split]].
  - rewrite fallback_within_primary. apply incl_filter.
  - apply fallback_within_primary.
  - intros H. rewrite fallback_within_primary, H. reflexivity.
  - intros l. rewrite locate_items_run. cbn [fst].
    rewrite page_items_primary. reflexivity.
Qed.

Lemma fallback_adds_nothing_witness :
  page_matches other_layout_page items_fallback_selector = []
  /\ fst (locate_items other_layout_page [])
     = Return (page_matches other_layout_page items_selector).
Proof.
  destruct (fallback_adds_nothing other_layout_page) as [_ [_ [H1 H2]]].
  split; [apply H1; reflexivity | apply H2].
Defined.

(* ================================================================== *)
(** * More facts about text: [strip], [str], UTF-8 and [quote] *)
(* ================================================================== *)

Lemma drop_while_head p s :
  match drop_while p s with [] => True | c :: _ => p c = false end.
Proof.
  induction s as [|c s IH]; cbn [drop_while]; [exact I|].
  destruct (p c) eqn:E; [exact IH | exact E].
Qed.

Lemma drop_while_suffix p s : exists pre, s = pre ++ drop_while p s.
Proof.
  induction s as [|c s [pre IH]]; cbn [drop_while]; [exists []; reflexivity|].
  destruct (p c).
  - exists (c :: pre). cbn [app]. f_equal. exact IH.
  - exists []. reflexivity.
Qed.

Lemma drop_while_fixed p s :
  match s with [] => True | c :: _ => p c = false end -> drop_while p s = s.
Proof. destruct s as [|c s]; [reflexivity|]. cbn. intros ->. reflexivity. Qed.

Lemma strip_by_ends p s :
  match strip_by p s with [] => True | c :: _ => p c = false end
  /\ match rev (strip_by p s) with [] => True | c :: _ => p c = false end.
Proof.
  unfold strip_by, rstrip_by, lstrip_by.
  pose proof (drop_while_head p s) as Hhead.
  set (t := drop_while p s) in *.
  pose proof (drop_while_head p (rev t)) as Hlast.
  destruct (drop_while_suffix p (rev t)) as [pre Hpre].
  set (u := drop_while p (rev t)) in *.
  split; [|rewrite rev_involutive; exact Hlast].
  assert (Ht : t = rev u ++ rev pre).
  { rewrite <- (rev_involutive t), Hpre, rev_app_distr. reflexivity. }
  destruct (rev u) as [|c r] eqn:E; [exact I|].
  rewrite Ht in Hhead. exact Hhead.
Qed.

Lemma strip_trimmed s : trimmed (strip s).
Proof. apply strip_by_ends. Qed.

Lemma strip_of_trimmed s : trimmed s -> strip s = s.
Proof.
  intros [H1 H2]. unfold strip, strip_by, rstrip_by, lstrip_by.
  rewrite (drop_while_fixed _ s H1), (drop_while_fixed _ (rev s) H2).
  apply rev_involutive.
Qed.

(** ** The decimal numeral of an integer *)
Lemma ascii_value_app ds ds' a :
  ascii_value (ds ++ ds') a = ascii_value ds' (ascii_value ds a).
Proof. unfold ascii_value. apply fold_left_app. Qed.

Lemma digits_of_spec fuel : forall n acc,
  (0 < fuel)%nat -> 0 <= n < 2 ^ Z.of_nat fuel ->
  exists ds, digits_of fuel n acc = ds ++ acc
             /\ ds <> []
             /\ forallb is_ascii_digit ds = true
             /\ ascii_value ds 0 = n.
Proof.
  induction fuel as [|f IH]; intros n acc Hf Hn; [lia|].
  cbn [digits_of].
  assert (Hd : is_ascii_digit (48 + n mod 10) = true).
  { apply is_ascii_digit_iff. pose proof (Z.mod_pos_bound n 10). lia. }
  destruct (n <? 10) eqn:E.
  - apply Z.ltb_lt in E. exists [48 + n mod 10]. repeat split.
    + discriminate.
    + cbn [forallb]. rewrite Hd. reflexivity.
    + unfold ascii_value. cbn [fold_left]. rewrite Z.mod_small; lia.
  - apply Z.ltb_ge in E.
    rewrite Nat2Z.inj_succ, Z.pow_succ_r in Hn by lia.
    assert (Hf' : (0 < f)%nat).
    { destruct f; [cbn in Hn; lia | lia]. }
    assert (Hn' : 0 <= n / 10 < 2 ^ Z.of_nat f).
    { split; [apply Z.div_pos; lia|].
      apply Z.div_lt_upper_bound; [lia|].
      assert (0 < 2 ^ Z.of_nat f) by (apply Z.pow_pos_nonneg; lia). lia. }
    destruct (IH (n / 10) ((48 + n mod 10) :: acc) Hf' Hn')
      as [ds [H1 [H2 [H3 H4]]]].
    exists (ds ++ [48 + n mod 10]). repeat split.
    + rewrite H1, <- app_assoc. reflexivity.
    + destruct ds; discriminate.
    + rewrite forallb_app, H3. cbn [forallb]. rewrite Hd. reflexivity.
    + rewrite ascii_value_app, H4. unfold ascii_value. cbn [fold_left].
      pose proof (Z.div_mod n 10). lia.
Qed.

Lemma str_of_nonneg_spec n :
  0 <= n ->
  str_of_nonneg n <> []
  /\ forallb is_ascii_digit (str_of_nonneg n) = true
  /\ ascii_value (str_of_nonneg n) 0 = n.
Proof.
  intros Hn. unfold str_of_nonneg.
  destruct (digits_of_spec (S (Z.to_nat (Z.log2 n))) n []) as [ds [H1 H2]].
  - lia.
  - split; [exact Hn|].
    rewrite Nat2Z.inj_succ, Z2Nat.id by apply Z.log2_nonneg.
    destruct (Z.eq_dec n 0) as [->|Hne]; [cbn; lia|].
    apply Z.log2_spec. lia.
  - rewrite H1, app_nil_r. exact H2.
Qed.

Lemma ascii_digits_are_ascii ds :
  forallb is_ascii_digit ds = true -> forallb (fun c => c <? 128) ds = true.
Proof.
  rewrite !forallb_forall. intros H c Hc. specialize (H c Hc).
  apply is_ascii_digit_iff in H. apply Z.ltb_lt. lia.
Qed.

Lemma int_of_ascii_negative ds :
  ds <> [] -> forallb is_ascii_digit ds = true ->
  int_of_ascii (45 :: ds) = Some (- ascii_value ds 0).
Proof.
  intros Hne Hd. destruct ds as [|d ds]; [congruence|].
  unfold int_of_ascii.
  replace (take_sign (drop_while is_ascii_space (45 :: d :: ds)))
    with (true, d :: ds) by reflexivity.
  pose proof Hd as Hd'. cbn [forallb] in Hd'.
  apply andb_true_iff in Hd' as [Hd1 _]. rewrite Hd1.
  rewrite <- (app_nil_r (d :: ds)) at 1.
  rewrite (scan_int_digits (d :: ds) 0 [] Hd I). reflexivity.
Qed.

(** [int(str(n))] is [n]. *)
Lemma int_str_of_int U n : int U (str_of_int n) = Return n.
Proof.
  unfold int, str_of_int. destruct (n <? 0) eqn:E.
  - apply Z.ltb_lt in E.
    destruct (str_of_nonneg_spec (- n)) as [H1 [H2 H3]]; [lia|].
    unfold to_ascii. cbn [forallb].
    rewrite (ascii_digits_are_ascii _ H2).
    replace ((45 <? 128) && true) with true by reflexivity.
    rewrite (int_of_ascii_negative _ H1 H2), H3. f_equal. lia.
  - apply Z.ltb_ge in E.
    destruct (str_of_nonneg_spec n E) as [H1 [H2 H3]].
    unfold to_ascii. rewrite (ascii_digits_are_ascii _ H2).
    rewrite (int_of_ascii_digits _ H1 H2), H3. reflexivity.
Qed.

Lemma str_of_int_injective n m : str_of_int n = str_of_int m -> n = m.
Proof.
  intros H. pose proof (int_str_of_int sample_db n) as Hn.
  rewrite H, int_str_of_int in Hn. congruence.
Qed.

(** The characters of a numeral: digits, after a minus sign at most. *)
Lemma str_of_int_chars n c :
  In c (str_of_int n) -> c = 45 \/ 48 <= c <= 57.
Proof.
  unfold str_of_int. destruct (n <? 0) eqn:E.
  - apply Z.ltb_lt in E. intros [<-|Hc]; [left; reflexivity|right].
    destruct (str_of_nonneg_spec (- n)) as [_ [H _]]; [lia|].
    rewrite forallb_forall in H. apply is_ascii_digit_iff, H, Hc.
  - apply Z.ltb_ge in E. intros Hc. right.
    destruct (str_of_nonneg_spec n E) as [_ [H _]].
    rewrite forallb_forall in H. apply is_ascii_digit_iff, H, Hc.
Qed.

(** ** UTF-8 *)
Lemma land_low base x k :
  0 <= k -> base mod 2 ^ k = 0 -> 0 <= x < 2 ^ k ->
  Z.land (base + x) (Z.ones k) = x.
Proof.
  intros Hk Hb Hx. rewrite Z.land_ones by exact Hk.
  rewrite Z.add_mod by lia. rewrite Hb, Z.add_0_l, Z.mod_mod by lia.
  apply Z.mod_small, Hx.
Qed.

Lemma continuation_byte x : 0 <= x < 64 -> continuation (128 + x) = x.
Proof.
  intros H. unfold continuation. change 63 with (Z.ones 6).
  apply land_low; [lia|reflexivity|exact H].
Qed.

Lemma utf8_decode_char c b rest :
  utf8_encode_char c = Some b ->
  utf8_decode (b ++ rest) = c :: utf8_decode rest.
Proof.
  unfold utf8_encode_char.
  destruct (c <? 0) eqn:E0; [discriminate|]. apply Z.ltb_ge in E0.
  destruct (c <? 128) eqn:E1.
  { intros [= <-]. cbn [app utf8_decode]. rewrite E1. reflexivity. }
  apply Z.ltb_ge in E1.
  assert (Hr : 0 <= c mod 64 < 64) by (apply Z.mod_pos_bound; lia).
  assert (Hr1 : 0 <= (c / 64) mod 64 < 64) by (apply Z.mod_pos_bound; lia).
  assert (Hr2 : 0 <= (c / 4096) mod 64 < 64) by (apply Z.mod_pos_bound; lia).
  destruct (c <? 2048) eqn:E2.
  { apply Z.ltb_lt in E2.
    assert (Hq : 2 <= c / 64 < 32) by (Z.div_mod_to_equations; lia).
    remember (192 + c / 64) as b0 eqn:Hb0.
    remember (128 + c mod 64) as b1 eqn:Hb1.
    intros [= <-]. cbn [app utf8_decode].
    replace (b0 <? 128) with false by (symmetry; apply Z.ltb_ge; lia).
    replace (b0 <? 224) with true by (symmetry; apply Z.ltb_lt; lia).
    subst b0 b1. change 31 with (Z.ones 5).
    rewrite (land_low 192 (c / 64) 5), continuation_byte
      by (try reflexivity; cbn; lia).
    f_equal. Z.div_mod_to_equations. lia. }
  apply Z.ltb_ge in E2.
  destruct (c <? 65536) eqn:E3.
  { apply Z.ltb_lt in E3.
    destruct ((55296 <=? c) && (c <=? 57343)); [discriminate|].
    assert (Hq : 0 <= c / 4096 < 16) by (Z.div_mod_to_equations; lia).
    remember (224 + c / 4096) as b0 eqn:Hb0.
    remember (128 + (c / 64) mod 64) as b1 eqn:Hb1.
    remember (128 + c mod 64) as b2 eqn:Hb2.
    intros [= <-]. cbn [app utf8_decode].
    replace (b0 <? 128) with false by (symmetry; apply Z.ltb_ge; lia).
    replace (b0 <? 224) with false by (symmetry; apply Z.ltb_ge; lia).
    replace (b0 <? 240) with true by (symmetry; apply Z.ltb_lt; lia).
    subst b0 b1 b2. change 15 with (Z.ones 4).
    rewrite (land_low 224 (c / 4096) 4), !continuation_byte
      by (try reflexivity; cbn; lia).
    f_equal. Z.div_mod_to_equations. lia. }
  apply Z.ltb_ge in E3.
  destruct (c <? 1114112) eqn:E4; [|discriminate].
  apply Z.ltb_lt in E4.
  assert (Hq : 0 <= c / 262144 < 8) by (Z.div_mod_to_equations; lia).
  remember (240 + c / 262144) as b0 eqn:Hb0.
  remember (128 + (c / 4096) mod 64) as b1 eqn:Hb1.
  remember (128 + (c / 64) mod 64) as b2 eqn:Hb2.
  remember (128 + c mod 64) as b3 eqn:Hb3.
  intros [= <-]. cbn [app utf8_decode].
  replace (b0 <? 128) with false by (symmetry; apply Z.ltb_ge; lia).
  replace (b0 <? 224) with false by (symmetry; apply Z.ltb_ge; lia).
  replace (b0 <? 240) with false by (symmetry; apply Z.ltb_ge; lia).
  subst b0 b1 b2 b3. change 7 with (Z.ones 3).
  rewrite (land_low 240 (c / 262144) 3), !continuation_byte
    by (try reflexivity; cbn; lia).
  f_equal. Z.div_mod_to_equations. lia.
Qed.

Lemma utf8_decode_encode s : forall bs,
  utf8_encode s = Some bs -> utf8_decode bs = s.
Proof.
  induction s as [|c s IH]; intros bs; cbn [utf8_encode].
  - intros [= <-]. reflexivity.
  - destruct (utf8_encode_char c) as [b|] eqn:Ec; [|discriminate].
    destruct (utf8_encode s) as [bs'|]; [|discriminate].
    intros [= <-]. rewrite (utf8_decode_char c b bs' Ec), (IH bs' eq_refl).
    reflexivity.
Qed.

Lemma some_inj {A} (a b : A) : Some a = Some b -> a = b.
Proof. congruence. Qed.

Lemma utf8_encode_char_bytes c b :
  utf8_encode_char c = Some b -> Forall (fun x => 0 <= x < 256) b.
Proof.
  unfold utf8_encode_char.
  destruct (c <? 0) eqn:E0; [discriminate|]. apply Z.ltb_ge in E0.
  destruct (c <? 128) eqn:E1.
  { apply Z.ltb_lt in E1. intros H. apply some_inj in H. subst b.
    apply Forall_cons; [lia|apply Forall_nil]. }
  destruct (c <? 2048) eqn:E2.
  { apply Z.ltb_lt in E2. intros H. apply some_inj in H. subst b.
    repeat (apply Forall_cons; [Z.div_mod_to_equations; lia|]).
    apply Forall_nil. }
  destruct (c <? 65536) eqn:E3.
  { apply Z.ltb_lt in E3.
    destruct ((55296 <=? c) && (c <=? 57343)); [discriminate|].
    intros H. apply some_inj in H. subst b.
    repeat (apply Forall_cons; [Z.div_mod_to_equations; lia|]).
    apply Forall_nil. }
  destruct (c <? 1114112) eqn:E4; [|discriminate].
  apply Z.ltb_lt in E4. intros H. apply some_inj in H. subst b.
  repeat (apply Forall_cons; [Z.div_mod_to_equations; lia|]).
  apply Forall_nil.
Qed.

Lemma utf8_encode_bytes s : forall bs,
  utf8_encode s = Some bs -> Forall (fun x => 0 <= x < 256) bs.
Proof.
  induction s as [|c s IH]; intros bs; cbn [utf8_encode].
  - intros [= <-]. constructor.
  - destruct (utf8_encode_char c) as [b|] eqn:Ec; [|discriminate].
    destruct (utf8_encode s) as [bs'|]; [|discriminate].
    intros [= <-]. apply Forall_app. split.
    + apply (utf8_encode_char_bytes c b Ec).
    + apply IH. reflexivity.
Qed.

Lemma utf8_encode_char_scalar c :
  utf8_encode_char c <> None <-> is_scalar c = true.
Proof.
  unfold utf8_encode_char, is_scalar.
  destruct (c <? 0) eqn:E0; destruct (c <? 128) eqn:E1;
  destruct (c <? 2048) eqn:E2; destruct (c <? 65536) eqn:E3;
  destruct (c <? 1114112) eqn:E4;
  destruct ((55296 <=? c) && (c <=? 57343)) eqn:E5;
  destruct (0 <=? c) eqn:E6;
  rewrite ?Z.ltb_lt, ?Z.ltb_ge, ?Z.leb_le, ?Z.leb_gt in *;
  rewrite ?andb_true_iff, ?andb_false_iff, ?Z.leb_le, ?Z.leb_gt in *;
  cbn; split; intros H; try congruence; try discriminate; try lia.
Qed.

Lemma utf8_encode_defined s :
  utf8_encode s <> None <-> forallb is_scalar s = true.
Proof.
  induction s as [|c s IH]; cbn [utf8_encode forallb].
  - split; [reflexivity|discriminate].
  - rewrite andb_true_iff, <- IH, <- utf8_encode_char_scalar.
    destruct (utf8_encode_char c), (utf8_encode s); split;
      try congruence; try (intros [? ?]; congruence);
      try (intros _; split; discriminate).
Qed.

(** ** [quote] *)
Lemma hex_value_digit d : 0 <= d < 16 -> hex_value (hex_digit d) = d.
Proof.
  intros H. unfold hex_value, hex_digit.
  destruct (d <? 10) eqn:E; [apply Z.ltb_lt in E | apply Z.ltb_ge in E].
  - replace (48 + d <? 58) with true by (symmetry; apply Z.ltb_lt; lia). lia.
  - replace (55 + d <? 58) with false by (symmetry; apply Z.ltb_ge; lia). lia.
Qed.

Lemma hex_digit_safe d : 0 <= d < 16 -> is_always_safe (hex_digit d) = true.
Proof.
  intros H. unfold hex_digit, is_always_safe.
  destruct (d <? 10) eqn:E; [apply Z.ltb_lt in E | apply Z.ltb_ge in E].
  - replace ((48 <=? 48 + d) && (48 + d <=? 57)) with true.
    + rewrite !orb_true_r. reflexivity.
    + symmetry. apply andb_true_iff. rewrite !Z.leb_le. lia.
  - replace ((65 <=? 55 + d) && (55 + d <=? 90)) with true; [reflexivity|].
    symmetry. apply andb_true_iff. rewrite !Z.leb_le. lia.
Qed.

Lemma kept_byte_not_percent b :
  is_always_safe b || (b =? 47) = true -> (b =? 37) = false.
Proof.
  intros H. apply Z.eqb_neq. intros ->. discriminate.
Qed.

Lemma unquote_bytes_keep c r :
  (c =? 37) = false -> unquote_bytes (c :: r) = c :: unquote_bytes r.
Proof. intros H. cbn [unquote_bytes]. rewrite H. reflexivity. Qed.

Lemma unquote_bytes_percent h l r :
  unquote_bytes (37 :: h :: l :: r)
  = (16 * hex_value h + hex_value l) :: unquote_bytes r.
Proof. reflexivity. Qed.

Lemma unquote_quote_byte b r :
  0 <= b < 256 -> unquote_bytes (quote_byte b ++ r) = b :: unquote_bytes r.
Proof.
  intros Hb. unfold quote_byte.
  destruct (is_always_safe b || (b =? 47)) eqn:E.
  - cbn [app]. apply unquote_bytes_keep, kept_byte_not_percent, E.
  - cbn [app]. rewrite unquote_bytes_percent.
    rewrite !hex_value_digit
      by (try apply Z.mod_pos_bound; Z.div_mod_to_equations; lia).
    f_equal. Z.div_mod_to_equations. lia.
Qed.

Lemma unquote_quote_bytes bs :
  Forall (fun x => 0 <= x < 256) bs ->
  unquote_bytes (flat_map quote_byte bs) = bs.
Proof.
  induction 1 as [|b bs Hb _ IH]; [reflexivity|].
  change (flat_map quote_byte (b :: bs))
    with (quote_byte b ++ flat_map quote_byte bs).
  rewrite (unquote_quote_byte b _ Hb). f_equal. exact IH.
Qed.

Lemma quote_injective s1 s2 q :
  quote s1 = Some q -> quote s2 = Some q -> s1 = s2.
Proof.
  unfold quote.
  destruct (utf8_encode s1) as [b1|] eqn:E1; [|discriminate].
  destruct (utf8_encode s2) as [b2|] eqn:E2; [|discriminate].
  cbn [option_map]. intros H1 H2.
  apply some_inj in H1. apply some_inj in H2.
  assert (Hb : b1 = b2).
  { rewrite <- (unquote_quote_bytes b1 (utf8_encode_bytes _ _ E1)).
    rewrite <- (unquote_quote_bytes b2 (utf8_encode_bytes _ _ E2)).
    congruence. }
  rewrite <- (utf8_decode_encode s1 b1 E1), <- (utf8_decode_encode s2 b2 E2).
  congruence.
Qed.

Lemma quote_byte_chars b :
  0 <= b < 256 -> forallb is_quoted_char (quote_byte b) = true.
Proof.
  intros Hb. unfold quote_byte.
  destruct (is_always_safe b || (b =? 47)) eqn:E.
  - cbn [forallb]. unfold is_quoted_char. rewrite E. reflexivity.
  - cbn [forallb]. unfold is_quoted_char at 1.
    change (37 =? 37) with true. rewrite orb_true_r.
    unfold is_quoted_char.
    rewrite !hex_digit_safe
      by (try apply Z.mod_pos_bound; Z.div_mod_to_equations; lia).
    reflexivity.
Qed.

Lemma quote_chars s q : quote s = Some q -> forallb is_quoted_char q = true.
Proof.
  unfold quote. destruct (utf8_encode s) as [bs|] eqn:E; [|discriminate].
  cbn [option_map]. intros H. apply some_inj in H. subst q.
  pose proof (utf8_encode_bytes _ _ E) as Hbs. clear E.
  induction Hbs as [|b bs Hb _ IH]; [reflexivity|].
  change (flat_map quote_byte (b :: bs))
    with (quote_byte b ++ flat_map quote_byte bs).
  rewrite forallb_app, (quote_byte_chars b Hb). exact IH.
Qed.

Lemma quote_defined s : quote s <> None <-> forallb is_scalar s = true.
Proof.
  rewrite <- utf8_encode_defined. unfold quote.
  destruct (utf8_encode s); cbn [option_map]; split; intros H;
    try exact H; discriminate.
Qed.

(** ** Counting separators *)
Lemma count_char_app c s t :
  count_char c (s ++ t) = (count_char c s + count_char c t)%nat.
Proof. unfold count_char. rewrite filter_app, length_app. reflexivity. Qed.

Lemma count_char_absent c s :
  (forall x, In x s -> x <> c) -> count_char c s = 0%nat.
Proof.
  intros H. unfold count_char. induction s as [|x s IH]; [reflexivity|].
  cbn [filter]. destruct (x =? c) eqn:E.
  - apply Z.eqb_eq in E. exfalso. apply (H x); [left; reflexivity|exact E].
  - apply IH. intros y Hy. apply H. right. exact Hy.
Qed.

Lemma quoted_char_not_separator c :
  is_quoted_char c = true ->
  c <> 38 /\ c <> 61 /\ c <> 63 /\ c <> 35 /\ c <> 32 /\ c <> 43 /\ c < 128.
Proof.
  unfold is_quoted_char, is_always_safe.
  rewrite !orb_true_iff, !andb_true_iff, !Z.leb_le, !Z.eqb_eq. lia.
Qed.

(** Cutting two texts at the first occurrence of a character. *)
Lemma app_cut_unique (c : char) l1 l2 r1 r2 :
  ~ In c l1 -> ~ In c l2 -> l1 ++ c :: r1 = l2 ++ c :: r2 ->
  l1 = l2 /\ r1 = r2.
Proof.
  revert l2. induction l1 as [|x l1 IH]; intros l2 H1 H2 H.
  - destruct l2 as [|y l2]; cbn [app] in H.
    + split; congruence.
    + exfalso. apply H2. left. congruence.
  - destruct l2 as [|y l2]; cbn [app] in H.
    + exfalso. apply H1. left. congruence.
    + injection H as Hxy Ht. subst y.
      destruct (IH l2) as [-> ->]; try assumption.
      * intros Hc. apply H1. right. exact Hc.
      * intros Hc. apply H2. right. exact Hc.
      * split; reflexivity.
Qed.

(* ================================================================== *)
(** * More facts about the crawl *)
(* ================================================================== *)

Lemma loads_served w keyword i :
  loads w keyword i = true ->
  w (page_url keyword i) = Return (served w keyword i).
Proof.
  unfold loads, served. destruct (w (page_url keyword i)); [reflexivity|].
  discriminate.
Qed.

Lemma not_loads_raises w keyword i :
  loads w keyword i = false -> exists e, w (page_url keyword i) = Raise e.
Proof.
  unfold loads. destruct (w (page_url keyword i)) as [d|e]; [discriminate|].
  intros _. exists e. reflexivity.
Qed.

(** Among the first [n] pages either all load or one is the first that
    does not. *)
Lemma first_failure w keyword (n : nat) :
  (forall i, 1 <= i <= Z.of_nat n -> loads w keyword i = true)
  \/ (exists k, 1 <= k <= Z.of_nat n
                /\ (forall i, 1 <= i < k -> loads w keyword i = true)
                /\ loads w keyword k = false).
Proof.
  induction n as [|n [IH|[k [Hk [Hpre Hfail]]]]].
  - left. intros i Hi. lia.
  - destruct (loads w keyword (Z.of_nat (S n))) eqn:E.
    + left. intros i Hi.
      destruct (Z.eq_dec i (Z.of_nat (S n))) as [->|Hne]; [exact E|].
      apply IH. lia.
    + right. exists (Z.of_nat (S n)). split; [lia|]. split; [|exact E].
      intros i Hi. apply IH. lia.
  - right. exists k. split; [lia|]. split; assumption.
Qed.


Lemma page_range_succ n : 0 <= n -> page_range (n + 1) = page_range n ++ [n + 1].
Proof.
  intros H. unfold page_range.
  replace (Z.to_nat (n + 1)) with (S (Z.to_nat n)) by lia.
  rewrite seq_S, map_app. cbn [map]. do 2 f_equal. lia.
Qed.

Section CrawlOutcome.

Variable U : unicode_db.
Variable w : web.
Variable min_rating : spec_float.
Variable min_reviews : Z.
Variable keyword : str.

(** The two outcomes of a call. *)
Lemma crawl_dichotomy max_pages :
  ((forall i, 1 <= i <= max_pages -> loads w keyword i = true)
   /\ run (crawl_naver_shopping U w min_rating min_reviews keyword max_pages)
      = (Return (flat_map
                   (fun i => page_records U min_rating min_reviews
                                          (served w keyword i))
                   (page_range max_pages)),
         flat_map (fun i => page_trace (page_url keyword i) (served w keyword i))
                  (page_range max_pages)
         ++ [CloseBrowser]))
  \/ (exists k e,
        1 <= k <= max_pages
        /\ (forall i, 1 <= i < k -> loads w keyword i = true)
        /\ w (page_url keyword k) = Raise e
        /\ run (crawl_naver_shopping U w min_rating min_reviews keyword max_pages)
           = (Raise e,
              flat_map (fun i => page_trace (page_url keyword i)
                                            (served w keyword i))
                       (page_range (k - 1))
              ++ [Goto (page_url keyword k)])).
Proof.
  destruct (first_failure w keyword (Z.to_nat max_pages))
    as [Hall|[k [Hk [Hpre Hfail]]]].
  - left. assert (Hall' : forall i, 1 <= i <= max_pages ->
                                    loads w keyword i = true)
      by (intros i Hi; apply Hall; lia).
    split; [exact Hall'|].
    apply crawl_all_loaded. intros i Hi. apply loads_served, Hall', Hi.
  - right. destruct (not_loads_raises _ _ _ Hfail) as [e He].
    exists k, e. split; [lia|]. split; [exact Hpre|]. split; [exact He|].
    apply crawl_first_failure; [lia| |exact He].
    intros i Hi. apply loads_served, Hpre, Hi.
Qed.

Lemma crawl_returns max_pages rs :
  result_of (crawl_naver_shopping U w min_rating min_reviews keyword max_pages)
  = Return rs ->
  (forall i, 1 <= i <= max_pages -> loads w keyword i = true)
  /\ rs = flat_map (fun i => page_records U min_rating min_reviews
                                          (served w keyword i))
                   (page_range max_pages).
Proof.
  unfold result_of.
  destruct (crawl_dichotomy max_pages) as [[Hall ->]|[k [e [_ [_ [_ ->]]]]]];
    cbn [fst]; [|discriminate].
  intros H. split; [exact Hall|]. congruence.
Qed.

End CrawlOutcome.

(** ** What the fields of a candidate can be *)
Lemma price_field_nonneg U item n :
  unicode_db_ok U -> price_field U item = Some n -> 0 <= n.
Proof.
  intros HU. unfold price_field.
  destruct (lookup item price_selector) as [t|e]; [|discriminate].
  rewrite (price_of_text_spec U HU).
  destruct (decimal_run U (clean_price t)); [|discriminate].
  intros H. apply some_inj in H. subst n. apply decimal_value_nonneg, HU.
Qed.

Lemma reviews_field_nonneg U item :
  unicode_db_ok U -> 0 <= reviews_field U item.
Proof.
  intros HU. unfold reviews_field.
  destruct (lookup item reviews_selector) as [t|e]; [|lia].
  rewrite (reviews_of_text_spec U HU).
  destruct (decimal_run U (clean_reviews t)); [|lia].
  apply decimal_value_nonneg, HU.
Qed.

Lemma name_field_trimmed item n : name_field item = Some n -> trimmed n.
Proof.
  unfold name_field. destruct (lookup item name_selector); [|discriminate].
  intros H. apply some_inj in H. subst n. apply strip_trimmed.
Qed.

Lemma item_records_length U min_rating min_reviews item :
  (List.length (item_records U min_rating min_reviews item) <= 1)%nat.
Proof.
  unfold item_records. destruct (candidate U item) as [c|]; [|cbn; lia].
  destruct (kept min_rating min_reviews c); cbn; lia.
Qed.

Lemma flat_map_length_bound {A B} (f : A -> list B) (l : list A) :
  (forall x, (List.length (f x) <= 1)%nat) ->
  (List.length (flat_map f l) <= List.length l)%nat.
Proof.
  intros H. induction l as [|x l IH]; [cbn; lia|].
  cbn [flat_map]. rewrite length_app. cbn [List.length].
  specialize (H x). lia.
Qed.

Lemma filter_flat_map {A B} (p : B -> bool) (f : A -> list B) (l : list A) :
  filter p (flat_map f l) = flat_map (fun x => filter p (f x)) l.
Proof.
  induction l as [|x l IH]; [reflexivity|].
  cbn [flat_map]. rewrite filter_app, IH. reflexivity.
Qed.

Lemma flat_map_ext_all {A B} (f g : A -> list B) (l : list A) :
  (forall x, f x = g x) -> flat_map f l = flat_map g l.
Proof.
  intros H. induction l as [|x l IH]; [reflexivity|].
  cbn [flat_map]. rewrite H, IH. reflexivity.
Qed.

(** The events of a page never include the closing of the browser. *)
Lemma page_trace_no_close u doc : ~ In CloseBrowser (page_trace u doc).
Proof.
  unfold page_trace. intros [H|[H|H]]; try discriminate.
  apply in_app_or in H as [H|H].
  - unfold page_queries in H.
    destruct (page_matches doc items_selector); cbn in H;
      intuition discriminate.
  - apply in_flat_map in H as [item [_ H]]. unfold item_trace in H.
    destruct (name_field item); cbn in H; intuition discriminate.
Qed.

Lemma pages_trace_no_close (f : Z -> url) (g : Z -> element) l :
  ~ In CloseBrowser (flat_map (fun i => page_trace (f i) (g i)) l).
Proof.
  intros H. apply in_flat_map in H as [i [_ H]].
  exact (page_trace_no_close _ _ H).
Qed.

(** ** The order of binary64 numbers *)
Ltac compare_cases :=
  repeat match goal with
  | H : context [Z.compare ?a ?b] |- _ =>
    destruct (Z.compare_spec a b); cbn in H; try discriminate H
  | |- context [Z.compare ?a ?b] =>
    destruct (Z.compare_spec a b); cbn
  | H : context [Pos.compare_cont Eq ?a ?b] |- _ =>
    change (Pos.compare_cont Eq a b) with (Pos.compare a b) in H;
    destruct (Pos.compare_spec a b); cbn in H; try discriminate H
  | |- context [Pos.compare_cont Eq ?a ?b] =>
    change (Pos.compare_cont Eq a b) with (Pos.compare a b);
    destruct (Pos.compare_spec a b); cbn
  end.

Lemma float_lt_le_trans x a b :
  float_lt x a = true -> SFleb a b = true -> float_lt x b = true.
Proof.
  unfold float_lt, SFltb, SFleb.
  destruct x as [sx|sx| |sx mx ex], a as [sa|sa| |sa ma ea],
    b as [sb|sb| |sb mb eb];
    try (cbn; discriminate);
    try destruct sx; try destruct sa; try destruct sb;
    cbn; try discriminate; try reflexivity;
    intros H1 H2; compare_cases; try reflexivity; try discriminate;
    try lia.
Qed.

Lemma kept_monotone mr mr' mv mv' c :
  SFleb mr mr' = true -> mv <= mv' ->
  kept mr' mv' c = true -> kept mr mv c = true.
Proof.
  intros Hr Hv. unfold kept, rejected.
  destruct (rating c) as [x|]; [|discriminate].
  rewrite !negb_true_iff, !orb_false_iff, !Z.ltb_ge.
  intros [H1 H2]. split; [|lia].
  destruct (float_lt x mr) eqn:E; [|reflexivity].
  rewrite (float_lt_le_trans x mr mr' E Hr) in H1. discriminate.
Qed.

Lemma item_records_stricter U mr mr' mv mv' item :
  SFleb mr mr' = true -> mv <= mv' ->
  item_records U mr' mv' item
  = filter (kept mr' mv') (item_records U mr mv item).
Proof.
  intros Hr Hv. unfold item_records.
  destruct (candidate U item) as [c|]; [|reflexivity].
  destruct (kept mr' mv' c) eqn:K'.
  - rewrite (kept_monotone mr mr' mv mv' c Hr Hv K'). cbn [filter].
    rewrite K'. reflexivity.
  - destruct (kept mr mv c); cbn [filter]; rewrite ?K'; reflexivity.
Qed.

Lemma float_lt_nan x : float_lt x S754_nan = false.
Proof. destruct x; reflexivity. Qed.

(* ================================================================== *)
(** * Further properties of the crawl *)
(* ================================================================== *)





(** X3.  Asking for one more page only appends: when the call for
    [n + 1] pages returns, the call for [n] pages returns too, and the
    longer result is the shorter one followed by the records of page
    [n + 1]. *)
Theorem crawl_one_more_page U w min_rating min_reviews keyword n rs' :
  0 <= n ->
  result_of (crawl_naver_shopping U w min_rating min_reviews keyword (n + 1))
  = Return rs' ->
  exists rs,
    result_of (crawl_naver_shopping U w min_rating min_reviews keyword n)
    = Return rs
    /\ rs' = rs ++ page_records U min_rating min_reviews
                                (served w keyword (n + 1)).
Proof.
  intros Hn H.
  destruct (crawl_returns U w min_rating min_reviews keyword _ _ H)
    as [Hall ->].
  eexists. split.
  - unfold result_of. rewrite (crawl_all_loaded U w min_rating min_reviews
      keyword (served w keyword) n); [reflexivity|].
    intros i Hi. apply loads_served, Hall. lia.
  - rewrite (page_range_succ n Hn), flat_map_app. cbn [flat_map].
    rewrite app_nil_r. reflexivity.
Qed.

Lemma crawl_one_more_page_witness :
  exists rs,
    result_of (crawl_naver_shopping sample_db
                 (web_two (page_of [pork]) (page_of [beef; nan_card]))
                 float_4_9 100 keyword_pork 1)
    = Return rs
    /\ page_records sample_db float_4_9 100 (page_of [pork])
       ++ page_records sample_db float_4_9 100 (page_of [beef; nan_card])
       = rs ++ page_records sample_db float_4_9 100
                 (served (web_two (page_of [pork]) (page_of [beef; nan_card]))
                         keyword_pork (1 + 1)).
Proof.
  apply (crawl_one_more_page sample_db
           (web_two (page_of [pork]) (page_of [beef; nan_card]))
           float_4_9 100 keyword_pork 1).
  - lia.
  - vm_compute. reflexivity.
Defined.

(** X4.  Every record that a call returns has a rating, which is not
    below [min_rating]; has at least [min_reviews] reviews, and never a
    negative count; has a price that is absent or not negative; and has a
    name without white space at either end. *)
Theorem returned_records_invariant
        U w min_rating min_reviews keyword max_pages rs c :
  unicode_db_ok U ->
  result_of (crawl_naver_shopping U w min_rating min_reviews keyword max_pages)
  = Return rs ->
  In c rs ->
  (exists x, rating c = Some x /\ float_lt x min_rating = false)
  /\ min_reviews <= reviews c
  /\ 0 <= reviews c
  /\ (forall p, price c = Some p -> 0 <= p)
  /\ trimmed (name c).
Proof.
  intros HU H Hc.
  destruct (crawl_returns U w min_rating min_reviews keyword _ _ H)
    as [Hall Hrs].
  destruct (crawl_membership U w min_rating min_reviews keyword
              (served w keyword) max_pages c) as [rs0 [H0 Hin]].
  { intros i Hi. apply loads_served, Hall, Hi. }
  rewrite H in H0. apply (f_equal (fun o => match o with
                                            | Return r => r
                                            | Raise _ => []
                                            end)) in H0.
  subst rs0. apply Hin in Hc as [i [item [_ [_ [Hcand K]]]]].
  unfold candidate in Hcand.
  destruct (name_field item) as [n|] eqn:En; [|discriminate].
  apply some_inj in Hcand. subst c. cbn [rating reviews price name].
  unfold kept, rejected in K. cbn [rating reviews] in K.
  destruct (rating_field U item) as [x|]; [|discriminate].
  apply negb_true_iff, orb_false_iff in K as [K1 K2]. apply Z.ltb_ge in K2.
  split; [exists x; split; [reflexivity|exact K1]|].
  split; [exact K2|].
  split; [apply reviews_field_nonneg, HU|].
  split; [intros p Hp; apply (price_field_nonneg U item p HU Hp)|].
  apply (name_field_trimmed item n En).
Qed.

Lemma returned_records_invariant_witness :
  (exists x, Some float_4_95 = Some x /\ float_lt x float_4_9 = false)
  /\ 100 <= 1234
  /\ 0 <= 1234
  /\ (forall p, Some 12900 = Some p -> 0 <= p)
  /\ trimmed (utf8 "Pork belly").
Proof.
  apply (returned_records_invariant sample_db (web_const (page_of [pork]))
           float_4_9 100 keyword_pork 1
           [ {| name := utf8 "Pork belly"; price := Some 12900;
                rating := Some float_4_95; reviews := 1234 |} ]
           {| name := utf8 "Pork belly"; price := Some 12900;
              rating := Some float_4_95; reviews := 1234 |}).
  - exact sample_db_ok.
  - vm_compute. reflexivity.
  - left. reflexivity.
Defined.

(** X5.  A stricter search returns what is left of a looser one: when
    [min_rating] is raised (both thresholds being numbers) and
    [min_reviews] is raised, the call returns the records of the looser
    call that pass the stricter thresholds, in the same order. *)
Theorem stricter_thresholds_filter
        U w mr mr' mv mv' keyword max_pages rs :
  SFleb mr mr' = true -> mv <= mv' ->
  result_of (crawl_naver_shopping U w mr mv keyword max_pages) = Return rs ->
  result_of (crawl_naver_shopping U w mr' mv' keyword max_pages)
  = Return (filter (kept mr' mv') rs).
Proof.
  intros Hr Hv H.
  destruct (crawl_returns U w mr mv keyword _ _ H) as [Hall ->].
  unfold result_of.
  rewrite (crawl_all_loaded U w mr' mv' keyword (served w keyword) max_pages)
    by (intros i Hi; apply loads_served, Hall, Hi).
  cbn [fst]. f_equal. rewrite filter_flat_map.
  apply flat_map_ext_all. intros i. unfold page_records.
  rewrite filter_flat_map. apply flat_map_ext_all. intros item.
  apply item_records_stricter; assumption.
Qed.

Lemma stricter_thresholds_filter_witness :
  result_of (crawl_naver_shopping sample_db
               (web_const (page_of [pork; beef; lamb]))
               float_4_95 1000 keyword_pork 1)
  = Return (filter (kept float_4_95 1000)
                   (page_records sample_db float_4_9 100
                                 (page_of [pork; beef; lamb]))).
Proof.
  apply (stricter_thresholds_filter sample_db
           (web_const (page_of [pork; beef; lamb]))
           float_4_9 float_4_95 100 1000 keyword_pork 1).
  - reflexivity.
  - lia.
  - vm_compute. reflexivity.
Defined.

(** X6.  The thresholds play no part in what is asked of the browser:
    two calls that differ only in [min_rating] and [min_reviews] make the
    same browser calls in the same order, and one raises exactly when the
    other does. *)
Theorem thresholds_do_not_change_requests
        U w mr mr' mv mv' keyword max_pages :
  trace_of (crawl_naver_shopping U w mr mv keyword max_pages)
  = trace_of (crawl_naver_shopping U w mr' mv' keyword max_pages)
  /\ (forall e,
        result_of (crawl_naver_shopping U w mr mv keyword max_pages) = Raise e
        <-> result_of (crawl_naver_shopping U w mr' mv' keyword max_pages)
            = Raise e).
Proof.
  unfold trace_of, result_of.
  destruct (crawl_dichotomy U w mr mv keyword max_pages)
    as [[Hall ->]|[k [e [Hk [Hpre [He ->]]]]]].
  - rewrite (crawl_all_loaded U w mr' mv' keyword (served w keyword) max_pages)
      by (intros i Hi; apply loads_served, Hall, Hi).
    cbn [fst snd]. split; [reflexivity|]. intros e'. split; discriminate.
  - rewrite (crawl_first_failure U w mr' mv' keyword (served w keyword)
               max_pages k e)
      by (try lia; try exact He; intros i Hi; apply loads_served, Hpre, Hi).
    cbn [fst snd]. split; [reflexivity|]. intros e'. split; auto.
Qed.

(** X7.  [browser.close()] is executed exactly when the call returns:
    once, as the last browser call; a call that raises never executes
    it. *)
Theorem browser_closed_iff_returned
        U w min_rating min_reviews keyword max_pages :
  (exists rs,
     result_of (crawl_naver_shopping U w min_rating min_reviews keyword
                                     max_pages) = Return rs)
  <-> In CloseBrowser
         (trace_of (crawl_naver_shopping U w min_rating min_reviews keyword
                                         max_pages)).
Proof.
  unfold trace_of, result_of.
  destruct (crawl_dichotomy U w min_rating min_reviews keyword max_pages)
    as [[Hall ->]|[k [e [Hk [Hpre [He ->]]]]]]; cbn [fst snd].
  - split; [|eexists; reflexivity].
    intros _. apply in_or_app. right. left. reflexivity.
  - split; [intros [rs Hrs]; discriminate|].
    intros H. apply in_app_or in H as [H|[H|[]]]; [|discriminate].
    exfalso. exact (pages_trace_no_close _ _ _ H).
Qed.

(** X8.  A [min_rating] that is NaN switches the rating threshold off:
    the call then returns exactly the candidates that have a rating, of
    any value, and at least [min_reviews] reviews. *)
Theorem nan_threshold_keeps_every_rating
        U w min_reviews keyword max_pages rs c :
  result_of (crawl_naver_shopping U w S754_nan min_reviews keyword max_pages)
  = Return rs ->
  (In c rs <->
   (exists i item, 1 <= i <= max_pages
                   /\ In item (page_items (served w keyword i))
                   /\ candidate U item = Some c)
   /\ rating c <> None /\ min_reviews <= reviews c).
Proof.
  intros H.
  destruct (crawl_returns U w S754_nan min_reviews keyword _ _ H)
    as [Hall _].
  destruct (crawl_membership U w S754_nan min_reviews keyword
              (served w keyword) max_pages c) as [rs0 [H0 Hin]].
  { intros i Hi. apply loads_served, Hall, Hi. }
  rewrite H in H0. apply (f_equal (fun o => match o with
                                            | Return r => r
                                            | Raise _ => []
                                            end)) in H0.
  subst rs0. rewrite Hin.
  assert (K : kept S754_nan min_reviews c = true
              <-> rating c <> None /\ min_reviews <= reviews c).
  { unfold kept, rejected. destruct (rating c) as [x|].
    - rewrite float_lt_nan. cbn [orb]. rewrite negb_true_iff, Z.ltb_ge.
      split; [intros K; split; [discriminate|exact K]|intros [_ K]; exact K].
    - split; [discriminate|intros [K _]; congruence]. }
  split.
  - intros [i [item [H1 [H2 [H3 H4]]]]]. split; [|apply K, H4].
    exists i, item. auto.
  - intros [[i [item [H1 [H2 H3]]]] H4]. exists i, item.
    repeat split; try assumption; try lia. apply K, H4.
Qed.

Lemma nan_threshold_keeps_every_rating_witness :
  In {| name := utf8 "Beef brisket"; price := Some 25000;
        rating := Some float_4_9; reviews := 100 |}
     (page_records sample_db S754_nan 100 (page_of [pork; beef]))
  <-> (exists i item, 1 <= i <= 1
         /\ In item (page_items (served (web_const (page_of [pork; beef]))
                                        keyword_pork i))
         /\ candidate sample_db item
            = Some {| name := utf8 "Beef brisket"; price := Some 25000;
                      rating := Some float_4_9; reviews := 100 |})
      /\ Some float_4_9 <> None /\ 100 <= 100.
Proof.
  apply (nan_threshold_keeps_every_rating sample_db
           (web_const (page_of [pork; beef])) 100 keyword_pork 1).
  vm_compute. reflexivity.
Defined.

(** X9.  A call returns at most one record for each card that the
    two-tier lookup finds on the pages. *)
Theorem at_most_one_record_per_card
        U w min_rating min_reviews keyword max_pages rs :
  result_of (crawl_naver_shopping U w min_rating min_reviews keyword max_pages)
  = Return rs ->
  (List.length rs
   <= List.length (flat_map (fun i => page_items (served w keyword i))
                            (page_range max_pages)))%nat.
Proof.
  intros H.
  destruct (crawl_returns U w min_rating min_reviews keyword _ _ H)
    as [_ ->].
  clear H. induction (page_range max_pages) as [|i l IH]; [apply Nat.le_refl|].
  cbn [flat_map]. rewrite !length_app.
  apply Nat.add_le_mono; [|exact IH].
  apply flat_map_length_bound, item_records_length.
Qed.

Lemma at_most_one_record_per_card_witness :
  (List.length (page_records sample_db float_4_9 100
                  (page_of [pork; no_title_card; blank_title_card]))
   <= List.length
        (flat_map (fun i => page_items
                    (served (web_const
                               (page_of [pork; no_title_card;
                                         blank_title_card]))
                            keyword_pork i))
                  (page_range 1)))%nat.
Proof.
  apply (at_most_one_record_per_card sample_db
           (web_const (page_of [pork; no_title_card; blank_title_card]))
           float_4_9 100 keyword_pork 1).
  vm_compute. reflexivity.
Defined.

(* ================================================================== *)
(** * Further properties of the presentation sort *)
(* ================================================================== *)

Lemma key_eqb_refl k : key_eqb k k = true.
Proof.
  unfold key_eqb. rewrite eqb_reflx, Z.eqb_refl. reflexivity.
Qed.

Lemma key_eqb_eq j k : key_eqb j k = true -> j = k.
Proof.
  destruct j as [a p], k as [b q]. unfold key_eqb. cbn [fst snd].
  rewrite andb_true_iff, Z.eqb_eq. intros [H1 H2].
  apply eqb_prop in H1. congruence.
Qed.

Lemma key_le_antisym j k :
  key_le j k = true -> key_le k j = true -> j = k.
Proof.
  destruct j as [[|] p], k as [[|] q]; unfold key_le, key_lt; cbn;
    try discriminate;
    rewrite !negb_true_iff, !Z.ltb_ge; intros H1 H2; f_equal; lia.
Qed.

Lemma filter_commute {A} (p q : A -> bool) (l : list A) :
  filter p (filter q l) = filter q (filter p l).
Proof.
  induction l as [|x l IH]; [reflexivity|]. cbn [filter].
  destruct (p x) eqn:Px, (q x) eqn:Qx; cbn [filter];
    rewrite ?Px, ?Qx, IH; reflexivity.
Qed.

Lemma StronglySorted_filter {A} (R : A -> A -> Prop) (p : A -> bool) l :
  StronglySorted R l -> StronglySorted R (filter p l).
Proof.
  induction 1 as [|a l Hl IH Ha]; cbn [filter]; [constructor|].
  destruct (p a); [|exact IH]. constructor; [exact IH|].
  apply Forall_forall. intros b Hb. apply filter_In in Hb as [Hb _].
  rewrite Forall_forall in Ha. apply Ha, Hb.
Qed.

Lemma sorted_for_report_sorted data :
  StronglySorted report_le (sorted_for_report data).
Proof.
  unfold sorted_for_report.
  pose proof (sorted_by_sorted key_lt sort_key key_lt_asym key_le_trans data)
    as H.
  induction H as [|a l _ IH Ha]; constructor; [exact IH|].
  eapply Forall_impl; [|exact Ha]. intros b Hb.
  unfold report_le, key_le. rewrite Hb. reflexivity.
Qed.

Lemma sorted_for_report_stable data k :
  filter (fun c => key_eqb (sort_key c) k) (sorted_for_report data)
  = filter (fun c => key_eqb (sort_key c) k) data.
Proof.
  unfold sorted_for_report. apply sorted_by_filter.
  intros a b. apply same_key_unordered.
Qed.

(** Two lists in report order that hold the same records of every key, in
    the same order, are the same list. *)
Lemma report_order_unique l1 : forall l2,
  StronglySorted report_le l1 -> StronglySorted report_le l2 ->
  (forall k, filter (fun c => key_eqb (sort_key c) k) l1
             = filter (fun c => key_eqb (sort_key c) k) l2) ->
  l1 = l2.
Proof.
  induction l1 as [|x r1 IH]; intros l2 S1 S2 H.
  - destruct l2 as [|y r2]; [reflexivity|].
    specialize (H (sort_key y)). cbn [filter] in H.
    rewrite key_eqb_refl in H. discriminate.
  - destruct l2 as [|y r2].
    { specialize (H (sort_key x)). cbn [filter] in H.
      rewrite key_eqb_refl in H. discriminate. }
    apply StronglySorted_inv in S1 as [S1 F1].
    apply StronglySorted_inv in S2 as [S2 F2].
    assert (Hxy : x = y).
    { pose proof (H (sort_key x)) as Hx. pose proof (H (sort_key y)) as Hy.
      cbn [filter] in Hx, Hy. rewrite key_eqb_refl in Hx, Hy.
      destruct (key_eqb (sort_key y) (sort_key x)) eqn:E1; [congruence|].
      destruct (key_eqb (sort_key x) (sort_key y)) eqn:E2.
      { apply key_eqb_eq in E2. rewrite E2, key_eqb_refl in E1.
        discriminate. }
      assert (Hx2 : In x r2).
      { eapply (proj1 (filter_In _ x r2)). rewrite <- Hx. left. reflexivity. }
      assert (Hy1 : In y r1).
      { eapply (proj1 (filter_In _ y r1)). rewrite Hy. left. reflexivity. }
      rewrite Forall_forall in F1, F2.
      pose proof (key_le_antisym _ _ (F1 y Hy1) (F2 x Hx2)) as Hk.
      rewrite Hk, key_eqb_refl in E2. discriminate. }
    subst y. f_equal. apply IH; try assumption.
    intros k. specialize (H k). cbn [filter] in H.
    destruct (key_eqb (sort_key x) k); congruence.
Qed.

(** X10.  The report order is the only stable order: any arrangement of
    the records that is sorted by the key and keeps the records of equal
    key in their input order is the sorted report, whichever stable
    sorting method produced it. *)
Theorem stable_sort_is_unique (data out : list product) :
  StronglySorted report_le out ->
  (forall k, filter (fun c => key_eqb (sort_key c) k) out
             = filter (fun c => key_eqb (sort_key c) k) data) ->
  out = sorted_for_report data.
Proof.
  intros S H. apply report_order_unique.
  - exact S.
  - apply sorted_for_report_sorted.
  - intros k. rewrite H, sorted_for_report_stable. reflexivity.
Qed.

(** X11.  Filtering and sorting commute: dropping records from the
    sorted report gives the sorted report of what is kept. *)
Theorem sort_commutes_with_filter (p : product -> bool) (data : list product) :
  filter p (sorted_for_report data) = sorted_for_report (filter p data).
Proof.
  apply report_order_unique.
  - apply StronglySorted_filter, sorted_for_report_sorted.
  - apply sorted_for_report_sorted.
  - intros k. rewrite filter_commute, !sorted_for_report_stable.
    apply filter_commute.
Qed.

(** X12.  Sorting a sorted report changes nothing. *)
Theorem sort_is_idempotent (data : list product) :
  sorted_for_report (sorted_for_report data) = sorted_for_report data.
Proof.
  symmetry. apply report_order_unique.
  - apply sorted_for_report_sorted.
  - apply sorted_for_report_sorted.
  - intros k. rewrite !sorted_for_report_stable. reflexivity.
Qed.

Lemma stable_sort_is_unique_witness :
  [ {| name := utf8 "B"; price := Some 5000; rating := None; reviews := 0 |};
    {| name := utf8 "A"; price := None; rating := None; reviews := 0 |} ]
  = sorted_for_report
      [ {| name := utf8 "A"; price := None; rating := None; reviews := 0 |};
        {| name := utf8 "B"; price := Some 5000; rating := None;
           reviews := 0 |} ].
Proof.
  apply stable_sort_is_unique.
  - repeat constructor.
  - intros [[|] q]; cbn [filter sort_key price key_eqb fst snd Bool.eqb andb];
      destruct (999999999 =? q); destruct (5000 =? q); reflexivity.
Defined.

(* ================================================================== *)
(** * Properties of the printed report *)
(* ================================================================== *)

Lemma filter_all {A} (p : A -> bool) (l : list A) :
  (forall x, In x l -> p x = true) -> filter p l = l.
Proof.
  intros H. induction l as [|x l IH]; [reflexivity|]. cbn [filter].
  rewrite (H x) by (left; reflexivity). f_equal. apply IH.
  intros y Hy. apply H. right. exact Hy.
Qed.

Lemma ascii_digit_not_space c : is_ascii_digit c = true -> is_space c = false.
Proof.
  rewrite is_ascii_digit_iff. intros H. unfold is_space.
  repeat (apply orb_false_iff; split);
    try (apply andb_false_iff; right; apply Z.leb_gt; lia);
    try (apply andb_false_iff; left; apply Z.leb_gt; lia);
    apply Z.eqb_neq; lia.
Qed.

Lemma digits_trimmed ds :
  forallb is_ascii_digit ds = true -> trimmed ds.
Proof.
  intros H. rewrite forallb_forall in H. split.
  - destruct ds as [|c r]; [exact I|].
    apply ascii_digit_not_space, H. left. reflexivity.
  - destruct (rev ds) as [|c r] eqn:E; [exact I|].
    apply ascii_digit_not_space, H, in_rev. rewrite E. left. reflexivity.
Qed.

(** The price text of the report, cleaned as the crawler cleans it. *)
Lemma clean_price_of_numeral p :
  0 <= p -> clean_price (str_of_int p ++ utf8 "원") = str_of_nonneg p.
Proof.
  intros Hp. unfold str_of_int.
  replace (p <? 0) with false by (symmetry; apply Z.ltb_ge; exact Hp).
  destruct (str_of_nonneg_spec p Hp) as [_ [Hd _]].
  rewrite clean_price_filters. change (utf8 "원") with [50896].
  rewrite !filter_app. cbn [filter Z.eqb negb Pos.eqb].
  rewrite app_nil_r.
  pose proof Hd as Hd'. rewrite forallb_forall in Hd'.
  rewrite (filter_all _ (str_of_nonneg p)).
  - rewrite (filter_all _ (str_of_nonneg p)).
    + apply strip_of_trimmed, digits_trimmed, Hd.
    + intros x Hx. specialize (Hd' x Hx). apply is_ascii_digit_iff in Hd'.
      apply negb_true_iff, Z.eqb_neq. lia.
  - intros x Hx. specialize (Hd' x Hx). apply is_ascii_digit_iff in Hd'.
    apply negb_true_iff, Z.eqb_neq. lia.
Qed.

Section ReportFacts.

Variable float_repr : spec_float -> str.




(** X14.  The price text of the report reads back as the price: the
    crawler's own price parser, given the text printed for a record whose
    price is absent or not negative, returns that price. *)
Theorem report_price_reads_back U entry :
  unicode_db_ok U ->
  (forall p, price entry = Some p -> 0 <= p) ->
  price_of_text U (price_output entry) = price entry.
Proof.
  intros HU Hp. unfold price_output.
  destruct (price entry) as [p|].
  - specialize (Hp p eq_refl). rewrite (price_of_text_spec U HU).
    rewrite (clean_price_of_numeral p Hp).
    destruct (str_of_nonneg_spec p Hp) as [H1 [H2 H3]].
    destruct (decimal_run_ascii U _ HU H1 H2) as [-> ->].
    rewrite H3. reflexivity.
  - unfold price_of_text.
    change (clean_price (utf8 "표시 안 됨"))
      with (54364 :: [49884; 32; 50504; 32; 46120]).
    rewrite (hangul_not_digits U 54364 _ HU) by lia. reflexivity.
Qed.


End ReportFacts.

Lemma report_price_reads_back_witness :
  price_of_text sample_db
    (price_output {| name := utf8 "Pork belly"; price := Some 12900;
                     rating := Some float_4_95; reviews := 1234 |})
  = Some 12900.
Proof.
  apply (report_price_reads_back sample_db
           {| name := utf8 "Pork belly"; price := Some 12900;
              rating := Some float_4_95; reviews := 1234 |} sample_db_ok).
  cbn [price]. intros p Hp. apply some_inj in Hp. lia.
Defined.

(* ================================================================== *)
(** * Properties of the page address *)
(* ================================================================== *)

Lemma quote_no_char q c :
  forallb is_quoted_char q = true -> is_quoted_char c = false ->
  ~ In c q.
Proof.
  intros H Hc Hin. rewrite forallb_forall in H. rewrite (H c Hin) in Hc.
  discriminate.
Qed.

Lemma count_char_quoted q c :
  forallb is_quoted_char q = true -> is_quoted_char c = false ->
  count_char c q = 0%nat.
Proof.
  intros H Hc. apply count_char_absent. intros x Hx ->.
  exact (quote_no_char q c H Hc Hx).
Qed.

Lemma count_char_numeral n c :
  c <> 45 -> ~ 48 <= c <= 57 -> count_char c (str_of_int n) = 0%nat.
Proof.
  intros H1 H2. apply count_char_absent. intros x Hx ->.
  destruct (str_of_int_chars n c Hx); [congruence|contradiction].
Qed.

(** X16.  The address of a page has the separators of the template and no
    others, whatever the keyword: one question mark, two ampersands, three
    equals signs, and no number sign, blank or plus sign; so the keyword
    cannot add or change a parameter. *)
Theorem request_url_separators keyword page_idx u :
  request_url keyword page_idx = Some u ->
  count_char 63 u = 1%nat /\ count_char 38 u = 2%nat
  /\ count_char 61 u = 3%nat /\ count_char 35 u = 0%nat
  /\ count_char 32 u = 0%nat /\ count_char 43 u = 0%nat.
Proof.
  unfold request_url. destruct (quote keyword) as [q|] eqn:E; [|discriminate].
  cbn [option_map]. intros H. apply some_inj in H. subst u.
  pose proof (quote_chars keyword q E) as Hq.
  unfold base_url_format. rewrite !count_char_app.
  rewrite !(count_char_quoted q _ Hq) by reflexivity.
  rewrite !(count_char_numeral page_idx) by lia.
  repeat split; reflexivity.
Qed.

Lemma request_url_separators_witness :
  exists u, request_url keyword_pork 2 = Some u
            /\ count_char 63 u = 1%nat /\ count_char 38 u = 2%nat
            /\ count_char 61 u = 3%nat /\ count_char 35 u = 0%nat
            /\ count_char 32 u = 0%nat /\ count_char 43 u = 0%nat.
Proof.
  eexists. split; [reflexivity|].
  apply (request_url_separators keyword_pork 2). reflexivity.
Defined.

(** Two instances of a template with two holes, the first hole filled
    with texts that lack the character after it. *)
Lemma template_injective (P1 P2 A' B q1 q2 d1 d2 : str) (c : char) :
  ~ In c q1 -> ~ In c q2 ->
  P1 ++ P2 ++ q1 ++ (c :: A') ++ d1 ++ B
  = P1 ++ P2 ++ q2 ++ (c :: A') ++ d2 ++ B ->
  q1 = q2 /\ d1 = d2.
Proof.
  intros H1 H2 H. apply app_inv_head in H. apply app_inv_head in H.
  cbn [app] in H. apply app_cut_unique in H as [Hq Hrest]; try assumption.
  split; [exact Hq|].
  apply app_inv_head in Hrest. apply app_inv_tail in Hrest. exact Hrest.
Qed.

Lemma base_url_format_template q d :
  base_url_format q d
  = utf8 "https://search.shopping.naver.com/search/all?" ++ utf8 "query="
    ++ q ++ (38 :: utf8 "pagingIndex=") ++ str_of_int d
    ++ utf8 "&pagingSize=40".
Proof. reflexivity. Qed.

(** X17.  Different requests have different addresses: the address
    determines the keyword and the page index. *)
Theorem request_url_injective k1 k2 i1 i2 u :
  request_url k1 i1 = Some u -> request_url k2 i2 = Some u ->
  k1 = k2 /\ i1 = i2.
Proof.
  unfold request_url.
  destruct (quote k1) as [q1|] eqn:E1; [|discriminate].
  destruct (quote k2) as [q2|] eqn:E2; [|discriminate].
  cbn [option_map]. intros H1 H2.
  apply some_inj in H1. apply some_inj in H2. rewrite <- H2 in H1. clear H2.
  rewrite !base_url_format_template in H1.
  apply template_injective in H1 as [Hq Hd].
  - subst q2. split; [exact (quote_injective k1 k2 q1 E1 E2)|].
    apply str_of_int_injective, Hd.
  - apply quote_no_char; [exact (quote_chars _ _ E1)|reflexivity].
  - apply quote_no_char; [exact (quote_chars _ _ E2)|reflexivity].
Qed.

Lemma request_url_injective_witness :
  keyword_pork = keyword_pork /\ 2 = 2.
Proof.
  destruct (request_url keyword_pork 2) as [u|] eqn:E;
    [|vm_compute in E; discriminate E].
  exact (request_url_injective keyword_pork keyword_pork 2 2 u E E).
Defined.

(** X18.  Building the address fails, with the encoding error of
    [quote], exactly when the keyword holds a code point that UTF-8 cannot
    encode (a surrogate); for every other keyword there is an address. *)
Theorem request_url_defined keyword page_idx :
  request_url keyword page_idx = None
  <-> exists c, In c keyword /\ is_scalar c = false.
Proof.
  unfold request_url.
  pose proof (quote_defined keyword) as H.
  destruct (quote keyword) as [q|] eqn:E; cbn [option_map].
  - split; [discriminate|]. intros [c [Hc Hs]].
    assert (Hall : forallb is_scalar keyword = true)
      by (apply H; discriminate).
    rewrite forallb_forall in Hall. rewrite (Hall c Hc) in Hs. discriminate.
  - split; [|reflexivity]. intros _.
    destruct (forallb is_scalar keyword) eqn:F.
    + exfalso. apply (proj2 H); reflexivity.
    + clear H E. induction keyword as [|c s IH]; [discriminate|].
      cbn [forallb] in F. apply andb_false_iff in F as [F|F].
      * exists c. split; [left; reflexivity|exact F].
      * destruct (IH F) as [c' [Hc' Hs']]. exists c'.
        split; [right; exact Hc'|exact Hs'].
Qed.


(* ================================================================== *)
(** * The thresholds are inclusive *)
(* ================================================================== *)

Lemma float_lt_irrefl x : float_lt x x = false.
Proof.
  unfold float_lt, SFltb.
  destruct x as [s|s| |s m e]; cbn; try (destruct s; reflexivity);
    try reflexivity.
  destruct s; rewrite Z.compare_refl;
    change (Pos.compare_cont Eq m m) with (Pos.compare m m);
    rewrite Pos.compare_refl; reflexivity.
Qed.

(** X19.  Both thresholds are inclusive: a card whose rating is exactly
    [min_rating] and whose review count is exactly [min_reviews] is
    returned. *)
Theorem thresholds_are_inclusive U min_rating min_reviews item c :
  candidate U item = Some c ->
  rating c = Some min_rating ->
  reviews c = min_reviews ->
  item_records U min_rating min_reviews item = [c].
Proof.
  intros Hc Hr Hv. unfold item_records, kept, rejected.
  rewrite Hc, Hr, Hv, float_lt_irrefl, Z.ltb_irrefl. reflexivity.
Qed.

Lemma thresholds_are_inclusive_witness :
  item_records sample_db float_4_9 100 beef
  = [ {| name := utf8 "Beef brisket"; price := Some 25000;
         rating := Some float_4_9; reviews := 100 |} ].
Proof.
  apply thresholds_are_inclusive; vm_compute; reflexivity.
Defined.
